(** * ios_sim.py: element lookup, gesture coordinates and command sequencing

    A shallow embedding of [skills/ios-simulator/scripts/ios_sim.py].

    - Python [str] values are modelled as [string] (ASCII text); [str.lower]
      maps the letters A-Z to a-z and [str.isdigit] tests for a non-empty
      string of the digits 0-9.
    - JSON numbers and [float] command-line arguments are modelled as exact
      rationals [Q]; [/] is Python's true division.  Rounding of binary
      floating point is not part of the model.
    - A UI element (a JSON object read through [dict.get]) is a record of
      optional fields.  For the text fields (label, title, value, role,
      type), which the code reads through [e.get(k) or ...] or compares with
      a string, [None] stands for a key that is absent or [null]: the code
      treats both alike.  For the frame, its four numbers and the enabled
      flag, which the code reads through [get(k, default)], [None] stands
      for an absent key only; a [null] stored under such a key is not
      represented (there the code raises, or for the flag reads false).
    - Every external program is taken to start: [subprocess.run] returns a
      result.  A program that cannot be started, and numbers that are not
      finite, are not represented.
    - Commands that talk to [idb] run in a small monad that threads the
      answers of the external processes and records a trace of what the
      tool did (processes started, text printed, sleeps).  The arrows and
      dashes that decorate the printed messages are written in ASCII. *)

From Stdlib Require Import String Ascii List Bool ZArith QArith Qround Lia.
From Stdlib Require Import DecimalString Lqa Qfield.
Import ListNotations.

Local Open Scope string_scope.
Local Open Scope list_scope.

(* ------------------------------------------------------------------ *)
(** ** Python text primitives *)

Module PyStr.

(** [str.lower] on one character. *)
Definition lower_char (c : ascii) : ascii :=
  let n := nat_of_ascii c in
  if (65 <=? n)%nat && (n <=? 90)%nat then ascii_of_nat (n + 32) else c.

(** [s.lower()] *)
Fixpoint lower (s : string) : string :=
  match s with
  | EmptyString => EmptyString
  | String c s' => String (lower_char c) (lower s')
  end.

(** [s.upper()] *)
Definition upper_char (c : ascii) : ascii :=
  let n := nat_of_ascii c in
  if (97 <=? n)%nat && (n <=? 122)%nat then ascii_of_nat (n - 32) else c.

Fixpoint upper (s : string) : string :=
  match s with
  | EmptyString => EmptyString
  | String c s' => String (upper_char c) (upper s')
  end.

Definition is_digit_char (c : ascii) : bool :=
  let n := nat_of_ascii c in (48 <=? n)%nat && (n <=? 57)%nat.

Fixpoint all_digits (s : string) : bool :=
  match s with
  | EmptyString => true
  | String c s' => is_digit_char c && all_digits s'
  end.

(** [s.isdigit()]: false on the empty string. *)
Definition isdigit (s : string) : bool :=
  match s with
  | EmptyString => false
  | String _ _ => all_digits s
  end.

(** Truth value of a string: [bool(s)]. *)
Definition truthy (s : string) : bool :=
  match s with EmptyString => false | String _ _ => true end.

(** [c.startswith(q)] *)
Fixpoint startswith (c q : string) {struct q} : bool :=
  match q with
  | EmptyString => true
  | String a q' =>
      match c with
      | EmptyString => false
      | String b c' => Ascii.eqb a b && startswith c' q'
      end
  end.

(** [q in c] for two strings: [q] occurs in [c] as a contiguous run. *)
Fixpoint contains (c q : string) : bool :=
  startswith c q ||
  match c with
  | EmptyString => false
  | String _ c' => contains c' q
  end.

(** [x in xs] for a list of strings. *)
Definition mem (x : string) (xs : list string) : bool :=
  existsb (String.eqb x) xs.

(** [o or ""] where [o] is a string or [None]. *)
Definition or_empty (o : option string) : string :=
  match o with
  | Some s => s
  | None => ""
  end.

(** [a or b] on optional strings: the first truthy operand, else the last. *)
Definition or_else (a b : option string) : option string :=
  match a with
  | Some s => if truthy s then a else b
  | None => b
  end.

(** [str(n)] for an integer. *)
Definition str_of_Z (n : Z) : string := NilZero.string_of_int (Z.to_int n).

(** [" ".join(xs)] *)
Definition join (xs : list string) : string := String.concat " " xs.

End PyStr.

(* ------------------------------------------------------------------ *)
(** ** Data model: accessibility elements *)

(** The object under the key [frame]; [None] is a key that is absent. *)
Record Frame := mkFrame {
  f_x : option Q;
  f_y : option Q;
  f_width : option Q;
  f_height : option Q
}.

(** [{}] *)
Definition empty_frame : Frame := mkFrame None None None None.

(** One element of the snapshot.  [None] in a text field is a key that is
    absent or [null]; [None] in [frame] or [enabled] is a key that is
    absent. *)
Record Element := mkElement {
  AXLabel : option string;
  title : option string;
  AXValue : option string;
  role : option string;
  type_ : option string;
  frame : option Frame;
  enabled : option bool
}.

(** [d.get(k, default)] on a numeric field. *)
Definition get_num (o : option Q) (default : Q) : Q :=
  match o with
  | Some v => v
  | None => default
  end.

(* ------------------------------------------------------------------ *)
(** ** find_element (lines 57-76) *)

Definition candidates (e : Element) : list string :=
  [ PyStr.lower (PyStr.or_empty (AXLabel e));
    PyStr.lower (PyStr.or_empty (title e));
    PyStr.lower (PyStr.or_empty (AXValue e)) ].

(** The test made on one element in the pass selected by [exact]. *)
Definition matches (exact : bool) (q : string) (e : Element) : bool :=
  if exact then PyStr.mem q (candidates e)
  else existsb (fun c => PyStr.contains c q)
               (filter PyStr.truthy (candidates e)).

(** [for e in elements: if <test>: return e] *)
Fixpoint scan (exact : bool) (q : string) (elements : list Element)
  : option Element :=
  match elements with
  | [] => None
  | e :: rest => if matches exact q e then Some e else scan exact q rest
  end.

(** [for exact in passes: ...], falling through to [return None]. *)
Fixpoint run_passes (passes : list bool) (q : string) (elements : list Element)
  : option Element :=
  match passes with
  | [] => None
  | exact :: later =>
      match scan exact q elements with
      | Some e => Some e
      | None => run_passes later q elements
      end
  end.

Definition find_element (elements : list Element) (query : string)
  : option Element :=
  let q := PyStr.lower query in
  run_passes [true; false] q elements.

(* ------------------------------------------------------------------ *)
(** ** element_center (lines 79-84) *)

Definition element_center (element : Element) : Q * Q :=
  let frame := match frame element with Some f => f | None => empty_frame end in
  let cx := (get_num (f_x frame) 0 + get_num (f_width frame) 0 / 2)%Q in
  let cy := (get_num (f_y frame) 0 + get_num (f_height frame) 0 / 2)%Q in
  (cx, cy).

(** Equality of points up to the value of the rationals. *)
Definition pt_eq (p r : Q * Q) : Prop :=
  (fst p == fst r)%Q /\ (snd p == snd r)%Q.

(** [int(x)]: truncation toward zero. *)
Definition py_int (x : Q) : Z := Z.quot (Qnum x) (Z.pos (Qden x)).

(* ------------------------------------------------------------------ *)
(** ** Text that embeds formatted values

    Command lines and messages contain numbers rendered by [str] or by a
    format specifier, and strings rendered by [repr].  The digits Python
    chooses for a float are not modelled: a rendered value is kept as a
    [piece] that records the value and how it was formatted. *)

Inductive piece :=
| Lit (s : string)                 (* literal text, or [str] of a string or int *)
| Num (fmt : string) (x : Q)       (* a float through [str] ([fmt = ""]) or [{x:fmt}] *)
| Repr (s : string).               (* [{s!r}] *)

Definition text := list piece.

(** [" ".join(cmd)] on a command line whose arguments are pieces. *)
Fixpoint join_args (cmd : list piece) : text :=
  match cmd with
  | [] => []
  | [a] => [a]
  | a :: rest => a :: Lit " " :: join_args rest
  end.

Definition nl : string := String (ascii_of_nat 10) EmptyString.

(* ------------------------------------------------------------------ *)
(** ** The effect monad

    [subprocess.run] is answered by an oracle: the [n]-th process the tool
    starts finishes with [oracle n].  The world counts the processes started
    so far and keeps the trace of observable events in order. *)

Record ProcResult := mkProc {
  returncode : Z;
  stdout_json : option (list Element);  (* [json.loads(stdout)]; [None] when it raises *)
  stderr : string
}.

Inductive Event :=
| EvRun (cmd : list piece)                           (* [subprocess.run(cmd, ...)] *)
| EvPrint (t : text)                                 (* [print(t)] *)
| EvErr (t : text)                                   (* [print(t, file=sys.stderr)] *)
| EvSummary (label : text) (elements : list Element) (* output of [print_ui_summary] *)
| EvSleep (secs : Q).                                (* [time.sleep(secs)] *)

Record World := mkWorld {
  calls : nat;
  trace : list Event
}.

Definition init_world : World := mkWorld 0 [].

Definition Oracle := nat -> ProcResult.

Inductive Outcome (A : Type) :=
| Ok (a : A)                (* normal return *)
| Exit (code : Z)           (* [sys.exit(code)] *)
| Raise (exn : string).     (* uncaught exception *)

Arguments Ok {A} a.
Arguments Exit {A} code.
Arguments Raise {A} exn.

Definition M (A : Type) : Type := Oracle -> World -> Outcome A * World.

Definition ret {A} (a : A) : M A := fun _ w => (Ok a, w).

Definition bind {A B} (m : M A) (k : A -> M B) : M B :=
  fun o w =>
    match m o w with
    | (Ok a, w') => k a o w'
    | (Exit c, w') => (Exit c, w')
    | (Raise e, w') => (Raise e, w')
    end.

Declare Scope py_scope.
Delimit Scope py_scope with py.
Notation "x <- m ;; k" := (bind m (fun x => k))
  (at level 100, m at next level, right associativity) : py_scope.
Notation "m ;;; k" := (bind m (fun _ => k))
  (at level 100, right associativity) : py_scope.
Local Open Scope py_scope.

Definition emit (e : Event) : M unit :=
  fun _ w => (Ok tt, mkWorld (calls w) (trace w ++ [e])).

Definition emit_all (es : list Event) : M unit :=
  fun _ w => (Ok tt, mkWorld (calls w) (trace w ++ es)).

Definition sys_exit {A} (code : Z) : M A := fun _ w => (Exit code, w).

Definition raise {A} (exn : string) : M A := fun _ w => (Raise exn, w).

Definition print (t : text) : M unit := emit (EvPrint t).
Definition eprint (t : text) : M unit := emit (EvErr t).
Definition sleep (secs : Q) : M unit := emit (EvSleep secs).

(** Start the next external process and read its answer. *)
Definition subprocess_run (cmd : list piece) : M ProcResult :=
  fun o w => (Ok (o (calls w)), mkWorld (S (calls w)) (trace w ++ [EvRun cmd])).

(** Run a command from the initial world. *)
Definition exec {A} (m : M A) (o : Oracle) : Outcome A * World := m o init_world.

(* ------------------------------------------------------------------ *)
(** ** Helpers (lines 32-54) *)

(** With [capture=False] the child's stderr is not captured and
    [result.stderr] is [None]. *)
Definition captured_stderr (capture : bool) (result : ProcResult) : option string :=
  if capture then Some (stderr result) else None.

Definition run (cmd : list piece) (check capture : bool) : M ProcResult :=
  result <- subprocess_run cmd ;;
  if check && negb (returncode result =? 0)%Z then
    eprint (Lit "ERROR: " :: join_args cmd) ;;;
    (match captured_stderr capture result with
     | Some s => if PyStr.truthy s then eprint [Lit s] else ret tt
     | None => ret tt
     end) ;;;
    sys_exit (returncode result)
  else ret result.

Definition udid_flags (udid : option string) : list piece :=
  match udid with
  | Some u => if PyStr.truthy u then [Lit "--udid"; Lit u] else []
  | None => []
  end.

Definition describe_all_cmd (udid : option string) : list piece :=
  [Lit "idb"; Lit "ui"; Lit "describe-all"; Lit "--json"] ++ udid_flags udid.

Definition describe_all (udid : option string) : M (list Element) :=
  result <- run (describe_all_cmd udid) true true ;;
  match stdout_json result with
  | Some elements => ret elements
  | None => raise "JSONDecodeError"
  end.

(** [print_ui_summary] (lines 87-122) only prints; what it prints is a
    function of its two arguments and is recorded as one event. *)
Definition print_ui_summary (elements : list Element) (label : text) : M unit :=
  emit (EvSummary label elements).

(** [with_ui_hooks] (lines 125-142) *)
Definition with_ui_hooks (udid : option string) (action_name : text)
  (action_fn : M unit) : M (list Element * list Element) :=
  print (Lit nl :: Lit "> " :: action_name ++ [Lit " - capturing PRE-action UI state ..."]) ;;;
  pre <- describe_all udid ;;
  print_ui_summary pre (Lit "PRE  | " :: action_name) ;;;
  action_fn ;;;
  sleep 1 ;;;
  print (Lit nl :: Lit "> " :: action_name ++ [Lit " - capturing POST-action UI state ..."]) ;;;
  post <- describe_all udid ;;
  print_ui_summary post (Lit "POST | " :: action_name) ;;;
  ret (pre, post).

(* ------------------------------------------------------------------ *)
(** ** Parsed arguments of the navigation commands (lines 549-591) *)

Record TapArgs := mkTapArgs {
  tap_x : Q; tap_y : Q; tap_duration : option Q; tap_udid : option string }.

Record TapElementArgs := mkTapElementArgs {
  te_label : string; te_udid : option string }.

Record SwipeArgs := mkSwipeArgs {
  swipe_x1 : Q; swipe_y1 : Q; swipe_x2 : Q; swipe_y2 : Q;
  swipe_duration : option Q; swipe_delta : option Z; swipe_udid : option string }.

Record ScrollArgs := mkScrollArgs {
  scroll_direction : string; scroll_distance : Q; scroll_speed : Q;
  scroll_udid : option string }.

Record TextArgs := mkTextArgs { text_text : string; text_udid : option string }.

Record KeyArgs := mkKeyArgs { key_key : string; key_udid : option string }.

Record ButtonArgs := mkButtonArgs { button_button : string; button_udid : option string }.

Record OpenUrlArgs := mkOpenUrlArgs { openurl_url : string; openurl_udid : option string }.

Record FindArgs := mkFindArgs { find_label : string; find_udid : option string }.

(** Truth value of an optional number: [None] and zero are false. *)
Definition truthy_Q (o : option Q) : bool :=
  match o with
  | Some v => negb (Qeq_bool v 0)
  | None => false
  end.

Definition truthy_Z (o : option Z) : bool :=
  match o with
  | Some v => negb (v =? 0)%Z
  | None => false
  end.

(* ------------------------------------------------------------------ *)
(** ** cmd_tap (lines 270-279) *)

Definition tap_cmd (args : TapArgs) : list piece :=
  let cmd := [Lit "idb"; Lit "ui"; Lit "tap"; Num "" (tap_x args); Num "" (tap_y args)]
             ++ udid_flags (tap_udid args) in
  if truthy_Q (tap_duration args)
  then cmd ++ [Lit "--duration"; Num "" (get_num (tap_duration args) 0)]
  else cmd.

Definition cmd_tap (args : TapArgs) : M unit :=
  let action :=
    run (tap_cmd args) true true ;;;
    print [Lit "Tapped ("; Num "" (tap_x args); Lit ", "; Num "" (tap_y args); Lit ")"] in
  with_ui_hooks (tap_udid args)
    [Lit "tap("; Num "" (tap_x args); Lit ", "; Num "" (tap_y args); Lit ")"] action ;;;
  ret tt.

(* ------------------------------------------------------------------ *)
(** ** cmd_tap_element (lines 282-311) *)

(** [e.get("AXLabel") or e.get("title") or e.get("AXValue") or ""] *)
Definition any_label (e : Element) : string :=
  PyStr.or_empty (PyStr.or_else (AXLabel e) (PyStr.or_else (title e) (AXValue e))).

(** [e.get("type") or e.get("role") or "?"] *)
Definition role_name (e : Element) : string :=
  match PyStr.or_else (type_ e) (role e) with
  | Some s => if PyStr.truthy s then s else "?"
  | None => "?"
  end.

(** The loop over [elements] that prints the labels on offer (lines 295-298). *)
Definition available_labels (elements : list Element) : list Event :=
  flat_map (fun e =>
    let lbl := any_label e in
    if PyStr.truthy lbl
    then [EvPrint [Lit "  ["; Lit (PyStr.or_empty (match type_ e with
                                                   | Some t => Some t
                                                   | None => role e end));
                   Lit "] '"; Lit lbl; Lit "'"]]
    else []) elements.

Definition tap_element_cmd (cx cy : Q) (udid : option string) : list piece :=
  [Lit "idb"; Lit "ui"; Lit "tap"; Lit (PyStr.str_of_Z (py_int cx));
   Lit (PyStr.str_of_Z (py_int cy))] ++ udid_flags udid.

Definition cmd_tap_element (args : TapElementArgs) : M unit :=
  let label := te_label args in
  print [Lit nl; Lit "> tap-element '"; Lit label;
         Lit "' - running describe-all to find target ..."] ;;;
  elements <- describe_all (te_udid args) ;;
  print_ui_summary elements [Lit "PRE  | tap-element '"; Lit label; Lit "'"] ;;;
  match find_element elements label with
  | None =>
      eprint [Lit "ERROR: No element found matching '"; Lit label; Lit "'"] ;;;
      print [Lit "Available labels:"] ;;;
      emit_all (available_labels elements) ;;;
      sys_exit 1
  | Some elem =>
      let '(cx, cy) := element_center elem in
      let role := role_name elem in
      let lbl := PyStr.or_empty (PyStr.or_else (AXLabel elem) (title elem)) in
      print [Lit nl; Lit "Found: ["; Lit role; Lit "] '"; Lit lbl;
             Lit "'  ->  tapping ("; Num ".0f" cx; Lit ", "; Num ".0f" cy; Lit ")"] ;;;
      run (tap_element_cmd cx cy (te_udid args)) true true ;;;
      sleep 1 ;;;
      post <- describe_all (te_udid args) ;;
      print_ui_summary post [Lit "POST | tap-element '"; Lit label; Lit "'"]
  end.

(* ------------------------------------------------------------------ *)
(** ** cmd_swipe (lines 314-329) *)

Definition swipe_cmd (args : SwipeArgs) : list piece :=
  let cmd := [Lit "idb"; Lit "ui"; Lit "swipe";
              Num "" (swipe_x1 args); Num "" (swipe_y1 args);
              Num "" (swipe_x2 args); Num "" (swipe_y2 args)]
             ++ udid_flags (swipe_udid args) in
  let cmd := if truthy_Q (swipe_duration args)
             then cmd ++ [Lit "--duration"; Num "" (get_num (swipe_duration args) 0)]
             else cmd in
  if truthy_Z (swipe_delta args)
  then cmd ++ [Lit "--delta";
               Lit (PyStr.str_of_Z (match swipe_delta args with Some d => d | None => 0%Z end))]
  else cmd.

Definition cmd_swipe (args : SwipeArgs) : M unit :=
  let action :=
    run (swipe_cmd args) true true ;;;
    print [Lit "Swiped ("; Num "" (swipe_x1 args); Lit ","; Num "" (swipe_y1 args);
           Lit ") -> ("; Num "" (swipe_x2 args); Lit ","; Num "" (swipe_y2 args); Lit ")"] in
  with_ui_hooks (swipe_udid args)
    [Lit "swipe("; Num "" (swipe_x1 args); Lit ","; Num "" (swipe_y1 args);
     Lit "->"; Num "" (swipe_x2 args); Lit ","; Num "" (swipe_y2 args); Lit ")"] action ;;;
  ret tt.

(* ------------------------------------------------------------------ *)
(** ** cmd_scroll (lines 332-378) *)

(** The tuple [(x1, y1, x2, y2)]: a finger swipe from [(x1, y1)] to [(x2, y2)]. *)
Record Swipe := mkSwipe { x1 : Q; y1 : Q; x2 : Q; y2 : Q }.

(** [d[k]] on a dict with string keys, written as an association list. *)
Fixpoint lookup {V : Type} (k : string) (d : list (string * V)) : option V :=
  match d with
  | [] => None
  | (k', v) :: rest => if String.eqb k k' then Some v else lookup k rest
  end.

(** Lines 344-350: the screen size probed from the application element. *)
Definition screen_size (elements : list Element) : Q * Q :=
  let app := find (fun e => match role e with
                            | Some r => String.eqb r "AXApplication"
                            | None => false
                            end) elements in
  match app with
  | Some a =>
      let frame := match frame a with Some f => f | None => empty_frame end in
      (get_num (f_width frame) 390, get_num (f_height frame) 844)
  | None => (390, 844)
  end%Q.

(** Lines 355-360. *)
Definition direction_map (cx cy dist : Q) : list (string * Swipe) :=
  [ ("down",  mkSwipe cx (cy + dist / 2) cx (cy - dist / 2));
    ("up",    mkSwipe cx (cy - dist / 2) cx (cy + dist / 2));
    ("left",  mkSwipe (cx + dist / 2) cy (cx - dist / 2) cy);
    ("right", mkSwipe (cx - dist / 2) cy (cx + dist / 2) cy) ]%Q.

(** [max(0, v)] *)
Definition max0 (v : Q) : Q := if Qle_bool v 0 then 0%Q else v.

(** Line 362. *)
Definition clamp (s : Swipe) : Swipe :=
  mkSwipe (max0 (x1 s)) (max0 (y1 s)) (max0 (x2 s)) (max0 (y2 s)).

(** Lines 352-362: the swipe for a screen of [w] by [h] points; [None] is
    the [KeyError] of the table lookup. *)
Definition scroll_swipe (w h dist : Q) (direction : string) : option Swipe :=
  let cx := (w / 2)%Q in
  let cy := (h / 2)%Q in
  match lookup direction (direction_map cx cy dist) with
  | Some s => Some (clamp s)
  | None => None
  end.

(** The integer coordinates handed to [idb] (lines 367-368). *)
Definition issued (s : Swipe) : Z * Z * Z * Z :=
  (py_int (x1 s), py_int (y1 s), py_int (x2 s), py_int (y2 s)).

Definition scroll_cmd (s : Swipe) (speed : Q) (udid : option string) : list piece :=
  [Lit "idb"; Lit "ui"; Lit "swipe";
   Lit (PyStr.str_of_Z (py_int (x1 s))); Lit (PyStr.str_of_Z (py_int (y1 s)));
   Lit (PyStr.str_of_Z (py_int (x2 s))); Lit (PyStr.str_of_Z (py_int (y2 s)));
   Lit "--duration"; Num "" speed] ++ udid_flags udid.

Definition cmd_scroll (args : ScrollArgs) : M unit :=
  let direction := scroll_direction args in
  elements <- describe_all (scroll_udid args) ;;
  let '(w, h) := screen_size elements in
  let dist := scroll_distance args in
  match scroll_swipe w h dist direction with
  | None => raise "KeyError"
  | Some s =>
      let action :=
        run (scroll_cmd s (scroll_speed args) (scroll_udid args)) true true ;;;
        print [Lit "Scrolled "; Lit direction; Lit ": swipe (";
               Lit (PyStr.str_of_Z (py_int (x1 s))); Lit ",";
               Lit (PyStr.str_of_Z (py_int (y1 s))); Lit ") -> (";
               Lit (PyStr.str_of_Z (py_int (x2 s))); Lit ",";
               Lit (PyStr.str_of_Z (py_int (y2 s))); Lit ")"] in
      print_ui_summary elements [Lit "PRE  | scroll-"; Lit direction] ;;;
      action ;;;
      sleep 1 ;;;
      post <- describe_all (scroll_udid args) ;;
      print_ui_summary post [Lit "POST | scroll-"; Lit direction]
  end.

(* ------------------------------------------------------------------ *)
(** ** cmd_text (lines 381-388) *)

Definition cmd_text (args : TextArgs) : M unit :=
  let action :=
    run ([Lit "idb"; Lit "ui"; Lit "text"; Lit (text_text args)]
         ++ udid_flags (text_udid args)) true true ;;;
    print [Lit "Typed: "; Repr (text_text args)] in
  with_ui_hooks (text_udid args) [Lit "text("; Repr (text_text args); Lit ")"] action ;;;
  ret tt.

(* ------------------------------------------------------------------ *)
(** ** cmd_key (lines 391-412) *)

Definition NAMED_KEYS : list (string * Z) :=
  [ ("enter", 40); ("return", 40);
    ("backspace", 42); ("delete", 42);
    ("tab", 43);
    ("space", 44);
    ("escape", 41);
    ("right", 79); ("left", 80); ("down", 81); ("up", 82);
    ("home", 74); ("end", 77);
    ("f1", 58); ("f2", 59); ("f3", 60); ("f4", 61) ]%Z.

(** Lines 403-405: the value forwarded to [idb ui key].  [args.key] is
    always a [str], so the [isinstance] test holds. *)
Definition key_val (key : string) : string :=
  if negb (PyStr.isdigit key) then
    match lookup (PyStr.lower key) NAMED_KEYS with
    | Some code => PyStr.str_of_Z code
    | None => key
    end
  else key.

Definition key_cmd (args : KeyArgs) : list piece :=
  [Lit "idb"; Lit "ui"; Lit "key"; Lit (key_val (key_key args))]
  ++ udid_flags (key_udid args).

Definition cmd_key (args : KeyArgs) : M unit :=
  let action :=
    run (key_cmd args) true true ;;;
    print [Lit "Key press: "; Lit (key_key args); Lit " (code ";
           Lit (key_val (key_key args)); Lit ")"] in
  with_ui_hooks (key_udid args) [Lit "key("; Lit (key_key args); Lit ")"] action ;;;
  ret tt.

(* ------------------------------------------------------------------ *)
(** ** cmd_button (lines 415-428) *)

Definition valid_buttons : list string :=
  ["APPLE_PAY"; "HOME"; "LOCK"; "SIDE_BUTTON"; "SIRI"].

Definition cmd_button (args : ButtonArgs) : M unit :=
  let button := PyStr.upper (button_button args) in
  if negb (PyStr.mem button valid_buttons) then
    (* the set [valid] is printed through its [repr]; the names are listed here *)
    eprint [Lit "ERROR: Invalid button '"; Lit button; Lit "'. Choose from: ";
            Lit (PyStr.join valid_buttons)] ;;;
    sys_exit 1
  else
    let action :=
      run ([Lit "idb"; Lit "ui"; Lit "button"; Lit button]
           ++ udid_flags (button_udid args)) true true ;;;
      print [Lit "Button: "; Lit button] in
    with_ui_hooks (button_udid args) [Lit "button("; Lit button; Lit ")"] action ;;;
    ret tt.

(* ------------------------------------------------------------------ *)
(** ** cmd_openurl (lines 431-438) *)

Definition cmd_openurl (args : OpenUrlArgs) : M unit :=
  let action :=
    run ([Lit "idb"; Lit "open"; Lit (openurl_url args)]
         ++ udid_flags (openurl_udid args)) true true ;;;
    print [Lit "Opened URL: "; Lit (openurl_url args)] in
  with_ui_hooks (openurl_udid args) [Lit "openurl("; Lit (openurl_url args); Lit ")"] action ;;;
  ret tt.

(* ------------------------------------------------------------------ *)
(** ** cmd_find (lines 466-492) *)

Definition find_labels (elements : list Element) : list Event :=
  flat_map (fun e =>
    let lbl := any_label e in
    if PyStr.truthy lbl
    then let '(cx, cy) := element_center e in
         [EvPrint [Lit "  ["; Lit (role_name e); Lit "] '"; Lit lbl;
                   Lit "'  center=("; Num ".0f" cx; Lit ","; Num ".0f" cy; Lit ")"]]
    else []) elements.

Definition cmd_find (args : FindArgs) : M unit :=
  let label := find_label args in
  elements <- describe_all (find_udid args) ;;
  match find_element elements label with
  | None =>
      print [Lit "No element found for '"; Lit label; Lit "'"] ;;;
      print [Lit nl; Lit "Available labels:"] ;;;
      emit_all (find_labels elements) ;;;
      sys_exit 1
  | Some elem =>
      let '(cx, cy) := element_center elem in
      let frame := match frame elem with Some f => f | None => empty_frame end in
      print [Lit nl; Lit "Found: ["; Lit (role_name elem); Lit "] '";
             Lit (any_label elem); Lit "'"] ;;;
      print [Lit "  Frame : x="; Num ".0f" (get_num (f_x frame) 0);
             Lit ", y="; Num ".0f" (get_num (f_y frame) 0);
             Lit ", w="; Num ".0f" (get_num (f_width frame) 0);
             Lit ", h="; Num ".0f" (get_num (f_height frame) 0)] ;;;
      print [Lit "  Center: ("; Num ".0f" cx; Lit ", "; Num ".0f" cy; Lit ")"] ;;;
      print [Lit "  Tap   : idb ui tap "; Lit (PyStr.str_of_Z (py_int cx)); Lit " ";
             Lit (PyStr.str_of_Z (py_int cy))] ;;;
      match find_udid args with
      | Some u => if PyStr.truthy u
                  then print [Lit "          (add --udid "; Lit u; Lit ")"]
                  else ret tt
      | None => ret tt
      end
  end.

(* ------------------------------------------------------------------ *)
(** ** The scroll sub-parser (lines 569-575) and dispatch (lines 610-641) *)

(** The words of [scroll <direction> [--distance D] [--speed S] [--udid U]]
    once split, with [float] already applied to the two numeric options. *)
Record ScrollArgv := mkScrollArgv {
  argv_direction : string;
  argv_distance : option Q;
  argv_speed : option Q;
  argv_udid : option string
}.

Definition direction_choices : list string := ["up"; "down"; "left"; "right"].

(** [argparse] refuses a positional outside [choices] with a message on
    stderr and exit status 2. *)
Definition parse_scroll (argv : ScrollArgv) : M ScrollArgs :=
  if PyStr.mem (argv_direction argv) direction_choices then
    ret (mkScrollArgs (argv_direction argv)
           (get_num (argv_distance argv) 300)
           (get_num (argv_speed argv) (4 # 10))
           (argv_udid argv))
  else
    eprint [Lit "error: argument direction: invalid choice: "; Repr (argv_direction argv);
            Lit " (choose from 'up', 'down', 'left', 'right')"] ;;;
    sys_exit 2.

(** [main] on a [scroll] command line. *)
Definition main_scroll (argv : ScrollArgv) : M unit :=
  args <- parse_scroll argv ;;
  cmd_scroll args.

(** The state-mutating navigation commands with their parsed arguments. *)
Inductive NavCommand :=
| Tap (args : TapArgs)
| TapElement (args : TapElementArgs)
| SwipeCmd (args : SwipeArgs)
| Scroll (args : ScrollArgs)
| TextCmd (args : TextArgs)
| Key (args : KeyArgs)
| Button (args : ButtonArgs)
| OpenUrl (args : OpenUrlArgs).

(** [COMMANDS[args.command](args)] for these eight entries. *)
Definition handler (c : NavCommand) : M unit :=
  match c with
  | Tap args => cmd_tap args
  | TapElement args => cmd_tap_element args
  | SwipeCmd args => cmd_swipe args
  | Scroll args => cmd_scroll args
  | TextCmd args => cmd_text args
  | Key args => cmd_key args
  | Button args => cmd_button args
  | OpenUrl args => cmd_openurl args
  end.

(* ------------------------------------------------------------------ *)
(** ** The text of print_ui_summary (lines 87-122) *)

(** [s * n] *)
Fixpoint repeat_str (s : string) (n : nat) : string :=
  match n with
  | O => ""
  | S k => (s ++ repeat_str s k)%string
  end.

Definition sep : string := repeat_str "-" 56.

(** [f"{s:<n}"]: [s] padded with spaces on the right to [n] characters. *)
Definition ljust (n : nat) (s : string) : string :=
  (s ++ repeat_str " " (n - String.length s))%string.

Definition INTERACTIVE : list string :=
  [ "AXButton"; "AXTextField"; "AXSecureTextField"; "AXTextArea";
    "AXPopUpButton"; "AXMenuItem"; "AXCell"; "AXLink"; "AXSwitch";
    "AXSegmentedControl"; "AXSlider"; "AXCheckBox" ].

(** [e.get("role") == "AXApplication"] *)
Definition is_application (e : Element) : bool :=
  match role e with
  | Some r => String.eqb r "AXApplication"
  | None => false
  end.

(** [e.get("role") in INTERACTIVE and e.get("enabled", True)]; an element
    without the key [enabled] counts as enabled. *)
Definition is_interactive (e : Element) : bool :=
  match role e with
  | Some r => PyStr.mem r INTERACTIVE
  | None => false
  end &&
  match enabled e with
  | Some b => b
  | None => true
  end.

(** Line 104. *)
Definition interactive (elements : list Element) : list Element :=
  filter is_interactive elements.

(** Lines 111-119: the line printed for one interactive element. *)
Definition interactive_line (e : Element) : text :=
  let '(cx, cy) := element_center e in
  [Lit "    ["; Lit (ljust 22 (role_name e)); Lit "] '"; Lit (any_label e);
   Lit "'  ->  tap("; Num ".0f" cx; Lit ", "; Num ".0f" cy; Lit ")"].

(** Lines 108-121: the block that lists the interactive elements. *)
Definition interactive_block (elements : list Element) : list text :=
  let shown := interactive elements in
  match shown with
  | [] => []
  | _ :: _ =>
      [Lit nl; Lit "  Interactive ("; Lit (PyStr.str_of_Z (Z.of_nat (length shown))); Lit "):"]
      :: map interactive_line (firstn 15 shown)
      ++ (if (15 <? length shown)%nat
          then [[Lit "    ... and ";
                 Lit (PyStr.str_of_Z (Z.of_nat (length shown - 15))); Lit " more"]]
          else [])
  end.

(** The lines [print_ui_summary(elements, label)] prints, one [text] per
    call of [print]: the content of the event [EvSummary label elements]. *)
Definition summary_lines (elements : list Element) (label : text) : list text :=
  [ [Lit nl; Lit sep]; Lit "  " :: label; [Lit sep] ]
  ++ match find is_application elements with
     | Some app => [[Lit "  App    : ";
                     Lit (match AXLabel app with Some l => l | None => "?" end)]]
     | None => []
     end
  ++ [[Lit "  Elements: "; Lit (PyStr.str_of_Z (Z.of_nat (length elements)))]]
  ++ interactive_block elements
  ++ [[Lit sep]].

(* ------------------------------------------------------------------ *)
(** ** cmd_list: the listing of the devices (lines 153-164)

    [data["devices"]] maps a runtime name to its devices; a Python dict
    keeps the order of the JSON object, so it is an association list. *)

Record Device := mkDevice {
  isAvailable : option bool;
  state : option string;
  udid : option string;
  name : option string
}.

(** [d.get("isAvailable")] as a truth value. *)
Definition available (d : Device) : bool :=
  match isAvailable d with
  | Some b => b
  | None => false
  end.

(** [s.replace(old, new)] for a non-empty [old]: occurrences are replaced
    from left to right without overlap; [skip] counts the characters of an
    occurrence that remain to be dropped. *)
Fixpoint replace_from (old new s : string) (skip : nat) : string :=
  match s with
  | EmptyString => EmptyString
  | String c s' =>
      match skip with
      | S k => replace_from old new s' k
      | O =>
          if PyStr.startswith s old
          then (new ++ replace_from old new s' (String.length old - 1))%string
          else String c (replace_from old new s' 0)
      end
  end.

Definition replace (s old new : string) : string := replace_from old new s 0.

Definition runtime_prefix : string := "com.apple.CoreSimulator.SimRuntime.".

(** Line 159. *)
Definition rt_label (runtime : string) : string := replace runtime runtime_prefix "".

(** [for x in xs: body(x)] *)
Fixpoint for_each {A : Type} (body : A -> M unit) (xs : list A) : M unit :=
  match xs with
  | [] => ret tt
  | x :: rest => body x ;;; for_each body rest
  end.

(** Lines 160-164: one device; [d["state"]], [d["udid"]] and [d["name"]]
    raise [KeyError] when the key is missing. *)
Definition print_device (label : string) (d : Device) : M unit :=
  if negb (available d) then ret tt
  else
    match state d with
    | None => raise "KeyError"
    | Some st =>
        let shown := if String.eqb st "Booted" then "* BOOTED" else st in
        match udid d with
        | None => raise "KeyError"
        | Some u =>
            match name d with
            | None => raise "KeyError"
            | Some n =>
                print [Lit u; Lit "  "; Lit (ljust 10 shown); Lit "  "; Lit n;
                       Lit "  ["; Lit label; Lit "]"]
            end
        end
    end.

(** Lines 155-164: one runtime with its devices. *)
Definition print_runtime (entry : string * list Device) : M unit :=
  let '(runtime, devices) := entry in
  if negb (existsb available devices) then ret tt
  else for_each (print_device (rt_label runtime)) devices.

(** Lines 153-164, for [devices = data["devices"]]. *)
Definition print_devices (devices : list (string * list Device)) : M unit :=
  print [Lit nl; Lit (ljust 38 "UDID"); Lit "  "; Lit (ljust 10 "State"); Lit "  "; Lit "Name"] ;;;
  print [Lit (repeat_str "-" 78)] ;;;
  for_each print_runtime devices.

(* ------------------------------------------------------------------ *)
(** ** Commands that start one process and report (lines 167-178, 224-249, 495-499) *)

Record UdidArgs := mkUdidArgs { boot_udid : string }.

Record InstallArgs := mkInstallArgs {
  install_app_path : string; install_udid : option string }.

Record BundleArgs := mkBundleArgs {
  bundle_id : string; bundle_udid : option string }.

Record ScreenshotArgs := mkScreenshotArgs {
  screenshot_path : string; screenshot_udid : option string }.

Definition cmd_boot (args : UdidArgs) : M unit :=
  print [Lit "Booting "; Lit (boot_udid args); Lit " ..."] ;;;
  run [Lit "xcrun"; Lit "simctl"; Lit "boot"; Lit (boot_udid args)] true true ;;;
  print [Lit "Done."].

Definition cmd_shutdown (args : UdidArgs) : M unit :=
  print [Lit "Shutting down "; Lit (boot_udid args); Lit " ..."] ;;;
  run [Lit "xcrun"; Lit "simctl"; Lit "shutdown"; Lit (boot_udid args)] true true ;;;
  print [Lit "Done."].

Definition cmd_install (args : InstallArgs) : M unit :=
  let cmd := [Lit "idb"; Lit "install"; Lit (install_app_path args)]
             ++ udid_flags (install_udid args) in
  print [Lit "Installing "; Lit (install_app_path args); Lit " ..."] ;;;
  run cmd true false ;;;
  print [Lit "Installed."].

Definition cmd_launch (args : BundleArgs) : M unit :=
  let cmd := [Lit "idb"; Lit "launch"; Lit (bundle_id args)]
             ++ udid_flags (bundle_udid args) in
  print [Lit "Launching "; Lit (bundle_id args); Lit " ..."] ;;;
  run cmd true true ;;;
  print [Lit "Launched "; Lit (bundle_id args); Lit "."] ;;;
  sleep (3 # 2) ;;;
  elements <- describe_all (bundle_udid args) ;;
  print_ui_summary elements [Lit "LAUNCHED | "; Lit (bundle_id args)].

Definition cmd_terminate (args : BundleArgs) : M unit :=
  let cmd := [Lit "idb"; Lit "terminate"; Lit (bundle_id args)]
             ++ udid_flags (bundle_udid args) in
  print [Lit "Terminating "; Lit (bundle_id args); Lit " ..."] ;;;
  run cmd true true ;;;
  print [Lit "Terminated "; Lit (bundle_id args); Lit "."].

Definition cmd_screenshot (args : ScreenshotArgs) : M unit :=
  let cmd := [Lit "idb"; Lit "screenshot"; Lit (screenshot_path args)]
             ++ udid_flags (screenshot_udid args) in
  run cmd true true ;;;
  print [Lit "Screenshot saved: "; Lit (screenshot_path args)].

(** The commands above with their parsed arguments. *)
Inductive SimpleCommand :=
| Boot (args : UdidArgs)
| Shutdown (args : UdidArgs)
| Install (args : InstallArgs)
| Launch (args : BundleArgs)
| Terminate (args : BundleArgs)
| Screenshot (args : ScreenshotArgs).

(** [COMMANDS[args.command](args)] for these six entries. *)
Definition simple_handler (c : SimpleCommand) : M unit :=
  match c with
  | Boot args => cmd_boot args
  | Shutdown args => cmd_shutdown args
  | Install args => cmd_install args
  | Launch args => cmd_launch args
  | Terminate args => cmd_terminate args
  | Screenshot args => cmd_screenshot args
  end.

(* ================================================================== *)
(** * Vocabulary of the statements *)

(* ------------------------------------------------------------------ *)
(** ** Element lookup *)

(** The exact pass accepts [e]: [q] is one of its lowered fields. *)
Definition exact_hit (q : string) (e : Element) : Prop := In q (candidates e).

(** The fallback pass accepts [e]: [q] occurs inside a non-empty lowered field. *)
Definition partial_hit (q : string) (e : Element) : Prop :=
  exists c, In c (candidates e) /\ c <> "" /\ exists a b, c = (a ++ q ++ b)%string.

(** [e] is the first element of [elements] with property [P]. *)
Definition first_such (P : Element -> Prop) (elements : list Element)
  (e : Element) : Prop :=
  exists before after,
    elements = before ++ e :: after /\ P e /\ forall x, In x before -> ~ P x.

(** A field equals the query without regard to case; a field that is absent
    reads as the empty text, as in [(e.get(k) or "").lower()]. *)
Definition field_is (query : string) (f : option string) : Prop :=
  PyStr.lower (PyStr.or_empty f) = PyStr.lower query.

Definition exact_for (query : string) (e : Element) : Prop :=
  field_is query (AXLabel e) \/ field_is query (title e) \/ field_is query (AXValue e).

(* ------------------------------------------------------------------ *)
(** ** Coordinates *)

Local Open Scope Q_scope.

(** An element whose frame carries all four numbers; the other fields are free. *)
Definition framed (e : Element) (x y w h : Q) : Element :=
  mkElement (AXLabel e) (title e) (AXValue e) (role e) (type_ e)
            (Some (mkFrame (Some x) (Some y) (Some w) (Some h))) (enabled e).

(** Equality of swipes up to the value of the rationals. *)
Definition swipe_eq (s t : Swipe) : Prop :=
  x1 s == x1 t /\ y1 s == y1 t /\ x2 s == x2 t /\ y2 s == y2 t.

(** Point reflection of both ends of a swipe through [(cx, cy)]. *)
Definition reflect (cx cy : Q) (s : Swipe) : Swipe :=
  mkSwipe (2 * cx - x1 s) (2 * cy - y1 s) (2 * cx - x2 s) (2 * cy - y2 s).

(** The entry of the direction table for a screen of [w] by [h] points,
    before the clamp of line 362. *)
Definition table_entry (w h dist : Q) (direction : string) : option Swipe :=
  lookup direction (direction_map (w / 2) (h / 2) dist).

Local Close Scope Q_scope.

(* ------------------------------------------------------------------ *)
(** ** Failures of external processes *)

(** What [run] leaves on the trace when the process it started exits
    non-zero: the start of the process, the [ERROR:] line and, when stderr
    was captured and is not empty, the captured stderr. *)
Definition failure_report (capture : bool) (cmd : list piece) (r : ProcResult)
  : list Event :=
  EvRun cmd :: EvErr (Lit "ERROR: " :: join_args cmd) ::
  match captured_stderr capture r with
  | Some s => if PyStr.truthy s then [EvErr [Lit s]] else []
  | None => []
  end.

(** A computation propagates failures when every process it starts that
    exits non-zero is the last one it starts, ends the run with that exit
    code, and has its failure report at the end of the trace. *)
Definition propagates {A : Type} (m : M A) : Prop :=
  forall (o : Oracle) (w0 : World),
    (calls w0 <= calls (snd (m o w0)))%nat /\
    forall k, (calls w0 <= k < calls (snd (m o w0)))%nat ->
              returncode (o k) <> 0%Z ->
              fst (m o w0) = Exit (returncode (o k)) /\
              calls (snd (m o w0)) = S k /\
              exists tr cmd, trace (snd (m o w0)) = tr ++ failure_report true cmd (o k).

Definition no_element_message (label : string) : text :=
  [Lit "ERROR: No element found matching '"; Lit label; Lit "'"].

Definition invalid_button_message (button : string) : text :=
  [Lit "ERROR: Invalid button '"; Lit button; Lit "'. Choose from: ";
   Lit (PyStr.join valid_buttons)].

Definition invalid_choice_message (direction : string) : text :=
  [Lit "error: argument direction: invalid choice: "; Repr direction;
   Lit " (choose from 'up', 'down', 'left', 'right')"].

(* ------------------------------------------------------------------ *)
(** ** The steps of a navigation command *)

Inductive Phase :=
| Snapshot                (* [idb ui describe-all] is started *)
| Summary                 (* [print_ui_summary] *)
| Action                  (* any other external process is started *)
| Settle (secs : Q).      (* [time.sleep(secs)] *)

Definition is_describe (cmd : list piece) : bool :=
  match cmd with
  | Lit a :: Lit b :: Lit c :: _ =>
      String.eqb a "idb" && String.eqb b "ui" && String.eqb c "describe-all"
  | _ => false
  end.

Definition run_phase (cmd : list piece) : Phase :=
  if is_describe cmd then Snapshot else Action.

Definition phase_of (e : Event) : option Phase :=
  match e with
  | EvRun cmd => Some (run_phase cmd)
  | EvSummary _ _ => Some Summary
  | EvSleep secs => Some (Settle secs)
  | EvPrint _ | EvErr _ => None
  end.

(** The steps of a trace, in order; printing of messages is not a step. *)
Fixpoint phases (tr : list Event) : list Phase :=
  match tr with
  | [] => []
  | e :: rest =>
      match phase_of e with
      | Some p => p :: phases rest
      | None => phases rest
      end
  end.

(** Snapshot, summary, action, settle delay of one second, snapshot, summary. *)
Definition hooked : list Phase :=
  [Snapshot; Summary; Action; Settle 1; Snapshot; Summary].

(* ------------------------------------------------------------------ *)
(** ** Sample data *)

Definition settings_row : Element :=
  mkElement (Some "Settings Menu") None None (Some "AXCell") None None None.

Definition settings_button : Element :=
  mkElement None (Some "SETTINGS") None (Some "AXButton") None None None.

Definition press_enter : NavCommand := Key (mkKeyArgs "enter" None).

(** Every process ends with exit code 3 and a message on stderr. *)
Definition companion_down : Oracle :=
  fun _ => mkProc 3 None "idb_companion is not running".

Definition iphone_app : Element :=
  mkElement (Some "Settings") None None (Some "AXApplication") (Some "Application")
            (Some (mkFrame (Some 0%Q) (Some 0%Q) (Some 390%Q) (Some 844%Q))) (Some true).

(** Every process succeeds; each snapshot shows the application alone. *)
Definition iphone : Oracle := fun _ => mkProc 0 (Some [iphone_app]) "".

Definition scroll_down_300 : ScrollArgv := mkScrollArgv "down" None None None.

(** Every process succeeds; each snapshot shows the two settings elements. *)
Definition settings_screen : Oracle :=
  fun _ => mkProc 0 (Some [settings_row; settings_button]) "".

(* ------------------------------------------------------------------ *)
(** ** Further vocabulary *)

(** A field that is absent or empty. *)
Definition blank (f : option string) : bool := negb (PyStr.truthy (PyStr.or_empty f)).

Definition has_blank (e : Element) : bool :=
  blank (AXLabel e) || blank (title e) || blank (AXValue e).

(** The swipe run backwards: from its end to its start. *)
Definition reversed (s : Swipe) : Swipe := mkSwipe (x2 s) (y2 s) (x1 s) (y1 s).

(** The frame of an element, [{}] when it has none. *)
Definition frame_of (e : Element) : Frame :=
  match frame e with Some f => f | None => empty_frame end.

(** The command lines of the processes started on a trace, in order. *)
Fixpoint started (tr : list Event) : list (list piece) :=
  match tr with
  | [] => []
  | EvRun cmd :: rest => cmd :: started rest
  | _ :: rest => started rest
  end.

(** [args.udid] of a navigation command. *)
Definition udid_of (c : NavCommand) : option string :=
  match c with
  | Tap args => tap_udid args
  | TapElement args => te_udid args
  | SwipeCmd args => swipe_udid args
  | Scroll args => scroll_udid args
  | TextCmd args => text_udid args
  | Key args => key_udid args
  | Button args => button_udid args
  | OpenUrl args => openurl_udid args
  end.

(** The command line names the simulator [u]: it contains [--udid u]. *)
Definition carries_udid (u : string) (cmd : list piece) : Prop :=
  exists pre post, cmd = pre ++ Lit "--udid" :: Lit u :: post.

(** The world [with_ui_hooks] hands to the action: the banner, the first
    snapshot and its summary have been added to [w0]. *)
Definition after_pre (udid : option string) (action_name : text)
  (pre : list Element) (w0 : World) : World :=
  mkWorld (S (calls w0))
    (trace w0 ++
     [ EvPrint (Lit nl :: Lit "> " :: action_name ++ [Lit " - capturing PRE-action UI state ..."]);
       EvRun (describe_all_cmd udid);
       EvSummary (Lit "PRE  | " :: action_name) pre ]).

(** The line a one-process command prints once its process has succeeded. *)
Definition done_message (c : SimpleCommand) : text :=
  match c with
  | Boot _ | Shutdown _ => [Lit "Done."]
  | Install _ => [Lit "Installed."]
  | Launch args => [Lit "Launched "; Lit (bundle_id args); Lit "."]
  | Terminate args => [Lit "Terminated "; Lit (bundle_id args); Lit "."]
  | Screenshot args => [Lit "Screenshot saved: "; Lit (screenshot_path args)]
  end.

(** Every process succeeds with a snapshot that shows [e] alone. *)
Definition showing (e : Element) : Oracle := fun _ => mkProc 0 (Some [e]) "".

(** An available device carries the three keys its line needs. *)
Definition printable (d : Device) : bool :=
  negb (available d) ||
  match state d, udid d, name d with
  | Some _, Some _, Some _ => true
  | _, _, _ => false
  end.

(** The line of the listing for device [d] under the runtime label [label]. *)
Definition device_event (label : string) (d : Device) : Event :=
  let st := PyStr.or_empty (state d) in
  EvPrint [Lit (PyStr.or_empty (udid d)); Lit "  ";
           Lit (ljust 10 (if String.eqb st "Booted" then "* BOOTED" else st));
           Lit "  "; Lit (PyStr.or_empty (name d)); Lit "  ["; Lit label; Lit "]"].

(** The lines of the listing: the available devices, runtime by runtime. *)
Definition device_events (devices : list (string * list Device)) : list Event :=
  flat_map (fun entry => map (device_event (rt_label (fst entry)))
                             (filter available (snd entry))) devices.

Definition devices_header : list Event :=
  [ EvPrint [Lit nl; Lit (ljust 38 "UDID"); Lit "  "; Lit (ljust 10 "State"); Lit "  ";
             Lit "Name"];
    EvPrint [Lit (repeat_str "-" 78)] ].

Definition booted_phone : Device :=
  mkDevice (Some true) (Some "Booted") (Some "A1B2") (Some "iPhone 16 Pro").

Definition retired_phone : Device := mkDevice (Some false) None None None.

(** The events that are steps of a command: everything but the messages. *)
Definition is_step (e : Event) : bool :=
  match e with
  | EvPrint _ | EvErr _ => false
  | EvRun _ | EvSummary _ _ | EvSleep _ => true
  end.

Definition steps (tr : list Event) : list Event := filter is_step tr.

(** The label of a summary opens with the text [tag]. *)
Definition labelled (tag : string) (label : text) : Prop :=
  exists p rest, label = Lit p :: rest /\ PyStr.startswith p tag = true.

(** The local checks a command makes before its action, on the first
    snapshot [pre]: tap-element must find its element, the button name must
    be valid, and the direction of scroll must be one the parser lets
    through. *)
Definition checks_pass (c : NavCommand) (pre : list Element) : Prop :=
  match c with
  | TapElement args => find_element pre (te_label args) <> None
  | Scroll args => In (scroll_direction args) direction_choices
  | Button args => In (PyStr.upper (button_button args)) valid_buttons
  | Tap _ | SwipeCmd _ | TextCmd _ | Key _ | OpenUrl _ => True
  end.

(** The command line of the external action of a command, given the first
    snapshot [pre]; [None] when a local check fails. *)
Definition action_of (c : NavCommand) (pre : list Element) : option (list piece) :=
  match c with
  | Tap args => Some (tap_cmd args)
  | TapElement args =>
      match find_element pre (te_label args) with
      | Some e => Some (tap_element_cmd (fst (element_center e)) (snd (element_center e))
                                        (te_udid args))
      | None => None
      end
  | SwipeCmd args => Some (swipe_cmd args)
  | Scroll args =>
      match scroll_swipe (fst (screen_size pre)) (snd (screen_size pre))
                         (scroll_distance args) (scroll_direction args) with
      | Some s => Some (scroll_cmd s (scroll_speed args) (scroll_udid args))
      | None => None
      end
  | TextCmd args =>
      Some ([Lit "idb"; Lit "ui"; Lit "text"; Lit (text_text args)]
            ++ udid_flags (text_udid args))
  | Key args => Some (key_cmd args)
  | Button args =>
      if PyStr.mem (PyStr.upper (button_button args)) valid_buttons
      then Some ([Lit "idb"; Lit "ui"; Lit "button"; Lit (PyStr.upper (button_button args))]
                 ++ udid_flags (button_udid args))
      else None
  | OpenUrl args =>
      Some ([Lit "idb"; Lit "open"; Lit (openurl_url args)]
            ++ udid_flags (openurl_udid args))
  end.

(* ================================================================== *)
(** * Properties *)


(* ------------------------------------------------------------------ *)
(** ** Text primitives *)

Lemma startswith_app (c q : string) :
  PyStr.startswith c q = true <-> exists b, c = (q ++ b)%string.
Proof.
  revert c; induction q as [|a q IH]; intros c; simpl.
  - split; [intros _; now exists c | reflexivity].
  - destruct c as [|a' c]; simpl.
    + split; [discriminate | intros [b Hb]; discriminate].
    + rewrite andb_true_iff, Ascii.eqb_eq, IH. split.
      * intros [-> [b ->]]. now exists b.
      * intros [b Hb]. injection Hb as -> ->. split; [reflexivity | now exists b].
Qed.

Lemma contains_app (c q : string) :
  PyStr.contains c q = true <-> exists a b, c = (a ++ q ++ b)%string.
Proof.
  induction c as [|ch c IH]; simpl.
  - rewrite orb_false_r, startswith_app. split.
    + intros [b Hb]. now exists "", b.
    + intros [a [b Hb]]. destruct a; simpl in Hb; [now exists b|discriminate].
  - rewrite orb_true_iff, startswith_app, IH. split.
    + intros [[b Hb]|[a [b Hb]]].
      * now exists "", b.
      * exists (String ch a), b. simpl. now rewrite Hb.
    + intros [a [b Hb]]. destruct a as [|ch' a]; simpl in Hb.
      * left. now exists b.
      * right. exists a, b. congruence.
Qed.

Lemma mem_In (x : string) (xs : list string) :
  PyStr.mem x xs = true <-> In x xs.
Proof.
  unfold PyStr.mem. rewrite existsb_exists. split.
  - intros [y [Hy Heq]]. apply String.eqb_eq in Heq. now subst.
  - intros H. exists x. split; [assumption | apply String.eqb_refl].
Qed.

Lemma truthy_nonempty (s : string) : PyStr.truthy s = true <-> s <> "".
Proof. destruct s; simpl; split; congruence. Qed.

Lemma lower_empty (s : string) : PyStr.lower s = "" -> s = "".
Proof. destruct s; simpl; [reflexivity | discriminate]. Qed.

(* ------------------------------------------------------------------ *)
(** ** Element lookup *)

Section Lookup.

Variable q : string.

Lemma matches_exact (e : Element) : matches true q e = true <-> exact_hit q e.
Proof. apply mem_In. Qed.

Lemma matches_partial (e : Element) : matches false q e = true <-> partial_hit q e.
Proof.
  unfold matches, partial_hit. rewrite existsb_exists. split.
  - intros [c [Hin Hc]]. apply filter_In in Hin. destruct Hin as [Hin Ht].
    exists c. repeat split; trivial.
    + now apply truthy_nonempty.
    + now apply contains_app.
  - intros [c [Hin [Hne Hsub]]]. exists c. split.
    + apply filter_In. split; [assumption | now apply truthy_nonempty].
    + now apply contains_app.
Qed.

Lemma scan_some (exact : bool) (elements : list Element) (e : Element) :
  scan exact q elements = Some e ->
  first_such (fun x => matches exact q x = true) elements e.
Proof.
  induction elements as [|x rest IH]; simpl; [discriminate|].
  destruct (matches exact q x) eqn:Hx.
  - intros [= <-]. exists [], rest. simpl. repeat split; trivial. intros ? [].
  - intros H. destruct (IH H) as [before [after [-> [He Hb]]]].
    exists (x :: before), after. repeat split; trivial.
    intros y [<-|Hy]; [congruence | now apply Hb].
Qed.

Lemma scan_none (exact : bool) (elements : list Element) :
  scan exact q elements = None ->
  forall x, In x elements -> matches exact q x = false.
Proof.
  induction elements as [|y rest IH]; simpl; [intros _ ? []|].
  destruct (matches exact q y) eqn:Hy; [discriminate|].
  intros H x [<-|Hx]; [assumption | now apply IH].
Qed.

Lemma scan_finds (exact : bool) (elements : list Element) (x : Element) :
  In x elements -> matches exact q x = true ->
  exists e, scan exact q elements = Some e.
Proof.
  intros Hin Hx. destruct (scan exact q elements) as [e|] eqn:Hs; [now exists e|].
  rewrite (scan_none _ _ Hs x Hin) in Hx. discriminate.
Qed.

Lemma first_such_iff (P R : Element -> Prop) (elements : list Element) (e : Element) :
  (forall x, P x <-> R x) -> first_such P elements e -> first_such R elements e.
Proof.
  intros HPR [before [after [-> [He Hb]]]]. exists before, after.
  repeat split; [now apply HPR|]. intros x Hx Hr. apply (Hb x Hx). now apply HPR.
Qed.

End Lookup.

(** C1. Element lookup returns the first element, in list order, accepted by
    the exact pass; when the exact pass accepts no element of the list it
    returns the first element accepted by the substring pass; and when
    neither pass accepts an element the result is [None] (the lookup is a
    total function: there is no other outcome). *)
Theorem find_element_first_match (elements : list Element) (query : string) :
  let q := PyStr.lower query in
  match find_element elements query with
  | Some e =>
      first_such (exact_hit q) elements e \/
      ((forall x, In x elements -> ~ exact_hit q x) /\
       first_such (partial_hit q) elements e)
  | None =>
      forall x, In x elements -> ~ exact_hit q x /\ ~ partial_hit q x
  end.
Proof.
  intros q. unfold find_element. fold q. simpl.
  destruct (scan true q elements) as [e|] eqn:Hexact.
  - left. apply scan_some in Hexact.
    eapply first_such_iff; [|exact Hexact]. intros x. apply matches_exact.
  - pose proof (scan_none _ _ _ Hexact) as Hno.
    assert (Hnoex : forall x, In x elements -> ~ exact_hit q x).
    { intros x Hx Hhit. apply matches_exact in Hhit. rewrite (Hno x Hx) in Hhit.
      discriminate. }
    destruct (scan false q elements) as [e|] eqn:Hpart.
    + right. split; [assumption|]. apply scan_some in Hpart.
      eapply first_such_iff; [|exact Hpart]. intros x. apply matches_partial.
    + intros x Hx. split; [now apply Hnoex|].
      intros Hhit. apply matches_partial in Hhit.
      rewrite (scan_none _ _ _ Hpart x Hx) in Hhit. discriminate.
Qed.

Lemma exact_for_hit (query : string) (e : Element) :
  exact_for query e <-> exact_hit (PyStr.lower query) e.
Proof.
  unfold exact_for, field_is, exact_hit, candidates. simpl.
  split.
  - intros [H|[H|H]]; rewrite H; auto.
  - intros [H|[H|[H|[]]]]; auto.
Qed.

Lemma field_is_present (query : string) (f : option string) :
  query <> "" -> field_is query f ->
  exists s, f = Some s /\ PyStr.lower s = PyStr.lower query.
Proof.
  intros Hne H. destruct f as [s|]; [now exists s|].
  unfold field_is in H. simpl in H. symmetry in H. apply lower_empty in H.
  contradiction.
Qed.

(** C2. When some element of the list has a label, title or value equal to
    the query without regard to case, the lookup returns an element of the
    list with such a field, wherever elements that merely contain the query
    stand in the list.  For a non-empty query the matching field of the
    returned element is present. *)
Theorem exact_match_preferred (elements : list Element) (query : string) :
  (exists e, In e elements /\ exact_for query e) ->
  exists r,
    find_element elements query = Some r /\ In r elements /\ exact_for query r /\
    (query <> "" ->
     exists s, (AXLabel r = Some s \/ title r = Some s \/ AXValue r = Some s) /\
               PyStr.lower s = PyStr.lower query).
Proof.
  intros [e [Hin He]]. apply exact_for_hit in He. apply matches_exact in He.
  destruct (scan_finds _ _ _ _ Hin He) as [r Hr].
  exists r. unfold find_element. simpl. rewrite Hr.
  destruct (scan_some _ _ _ _ Hr) as [before [after [-> [Hm _]]]].
  apply matches_exact, exact_for_hit in Hm.
  repeat split; trivial.
  - apply in_or_app. right. now left.
  - intros Hne. destruct Hm as [H|[H|H]];
      destruct (field_is_present _ _ Hne H) as [s [Hs Hl]]; exists s; auto.
Qed.

Lemma exact_match_preferred_witness :
  exists r,
    find_element [settings_row; settings_button] "Settings" = Some r /\
    In r [settings_row; settings_button] /\ exact_for "Settings" r /\
    ("Settings" <> "" ->
     exists s, (AXLabel r = Some s \/ title r = Some s \/ AXValue r = Some s) /\
               PyStr.lower s = PyStr.lower "Settings").
Proof.
  apply (exact_match_preferred [settings_row; settings_button] "Settings").
  exists settings_button. split.
  - simpl. auto.
  - right. left. reflexivity.
Defined.

Example find_exact_after_partial :
  find_element [settings_row; settings_button] "Settings" = Some settings_button.
Proof. reflexivity. Qed.

Example find_partial_fallback :
  find_element [settings_row; settings_button] "menu" = Some settings_row.
Proof. reflexivity. Qed.

Example find_nothing :
  find_element [settings_row; settings_button] "wifi" = None.
Proof. reflexivity. Qed.

(* ------------------------------------------------------------------ *)
(** ** Coordinates *)

Local Open Scope Q_scope.

(** C4. The centre of a frame is (x + w/2, y + h/2), each axis on its own;
    a frame of zero size has its origin as centre; the frame at (100, 200)
    of size 50 by 20 has centre (125, 210). *)
Theorem element_center_formula :
  (forall e x y w h,
     element_center (framed e x y w h) = (x + w / 2, y + h / 2)) /\
  (forall e x y w h y' h',
     fst (element_center (framed e x y w h)) =
     fst (element_center (framed e x y' w h'))) /\
  (forall e x y w h x' w',
     snd (element_center (framed e x y w h)) =
     snd (element_center (framed e x' y w' h))) /\
  (forall e x y, pt_eq (element_center (framed e x y 0 0)) (x, y)) /\
  (forall e, pt_eq (element_center (framed e 100 200 50 20)) (125, 210)).
Proof.
  repeat split; try reflexivity; simpl; field.
Qed.

Lemma scroll_swipe_clamps (w h dist : Q) (direction : string) :
  scroll_swipe w h dist direction = option_map clamp (table_entry w h dist direction).
Proof.
  unfold scroll_swipe, table_entry.
  now destruct (lookup direction (direction_map (w / 2) (h / 2) dist)).
Qed.

Lemma table_entry_defined (w h dist : Q) (direction : string) :
  In direction direction_choices <-> table_entry w h dist direction <> None.
Proof.
  unfold table_entry, direction_map, direction_choices. simpl. split.
  - intros [<-|[<-|[<-|[<-|[]]]]]; simpl; discriminate.
  - destruct (String.eqb_spec direction "down") as [->|_]; [auto|].
    destruct (String.eqb_spec direction "up") as [->|_]; [auto|].
    destruct (String.eqb_spec direction "left") as [->|_]; [auto|].
    destruct (String.eqb_spec direction "right") as [->|_]; [auto|].
    intros H. now contradiction H.
Qed.

Lemma max0_nonneg (v : Q) : 0 <= max0 v.
Proof.
  unfold max0. destruct (Qle_bool v 0) eqn:E; [apply Qle_refl|].
  destruct (Qlt_le_dec 0 v) as [Hlt|Hle]; [now apply Qlt_le_weak|].
  apply Qle_bool_iff in Hle. congruence.
Qed.

Lemma max0_id (v : Q) : 0 <= v -> max0 v == v.
Proof.
  intros Hv. unfold max0. destruct (Qle_bool v 0) eqn:E; [|reflexivity].
  apply Qle_bool_iff in E. now apply Qle_antisym.
Qed.

Lemma py_int_nonneg (v : Q) : 0 <= v -> (0 <= py_int v)%Z.
Proof.
  intros Hv. unfold py_int. apply Z.quot_pos; [|apply Pos2Z.is_pos].
  unfold Qle in Hv. simpl in Hv. lia.
Qed.

(** C3, refuted as stated: on a 390 by 844 screen the swipe computed for
    "down" with distance 300 is not the one from (195, 372) to (195, 72). *)
Lemma scroll_down_example_refuted :
  ~ exists s, scroll_swipe 390 844 300 "down" = Some s /\
              swipe_eq s (mkSwipe 195 372 195 72).
Proof.
  intros [s [Hs [_ [Hy _]]]]. vm_compute in Hs. injection Hs as <-.
  vm_compute in Hy. discriminate.
Qed.

(** C3, amended. For "down" and "up" the table holds a swipe along the
    vertical through the screen midpoint, centred on the midpoint, whose end
    lies the given distance above (for "down") or below (for "up") its
    start: the finger moves against the named direction.  On a 390 by 844
    screen, "down" with distance 300 is the swipe from (195, 572) to
    (195, 272), issued with these integer coordinates. *)
Theorem scroll_vertical_inverted :
  (forall w h dist, exists s,
     table_entry w h dist "down" = Some s /\
     x1 s == w / 2 /\ x2 s == w / 2 /\
     (y1 s + y2 s) / 2 == h / 2 /\ y1 s - y2 s == dist) /\
  (forall w h dist, exists s,
     table_entry w h dist "up" = Some s /\
     x1 s == w / 2 /\ x2 s == w / 2 /\
     (y1 s + y2 s) / 2 == h / 2 /\ y2 s - y1 s == dist) /\
  (exists s,
     scroll_swipe 390 844 300 "down" = Some s /\
     swipe_eq s (mkSwipe 195 572 195 272) /\
     issued s = (195, 572, 195, 272)%Z).
Proof.
  split; [|split].
  - intros w h dist. eexists. split; [reflexivity|]. simpl.
    repeat split; try reflexivity; field.
  - intros w h dist. eexists. split; [reflexivity|]. simpl.
    repeat split; try reflexivity; field.
  - eexists. split; [reflexivity|]. split; [|reflexivity].
    repeat split; reflexivity.
Qed.

(** For "left" the table holds a swipe whose end lies the given distance to
    the left of its start, and for "right" to the right: along the horizontal
    the finger moves in the named direction (the comments of lines 358-359),
    not against it as the docstring of [cmd_scroll] has it. *)
Remark scroll_horizontal_entries (w h dist : Q) :
  (exists s, table_entry w h dist "left" = Some s /\
             y1 s == h / 2 /\ y2 s == h / 2 /\ x1 s - x2 s == dist) /\
  (exists s, table_entry w h dist "right" = Some s /\
             y1 s == h / 2 /\ y2 s == h / 2 /\ x2 s - x1 s == dist).
Proof.
  split; eexists; (split; [reflexivity|]); simpl; repeat split; try reflexivity; field.
Qed.

(** C5, refuted as stated: with distance 1000 on a 390 by 844 screen the
    clamp changes one end of each swipe, and the swipe computed for "down" is
    not the reflection through the screen centre of the one for "up". *)
Lemma scroll_reflection_refuted :
  exists sd su,
    scroll_swipe 390 844 1000 "down" = Some sd /\
    scroll_swipe 390 844 1000 "up" = Some su /\
    ~ swipe_eq sd (reflect (390 / 2) (844 / 2) su).
Proof.
  eexists. eexists. split; [reflexivity|]. split; [reflexivity|].
  intros [_ [Hy _]]. vm_compute in Hy. discriminate.
Qed.

Lemma clamp_id (s : Swipe) :
  0 <= x1 s -> 0 <= y1 s -> 0 <= x2 s -> 0 <= y2 s -> swipe_eq (clamp s) s.
Proof.
  intros. unfold swipe_eq, clamp. simpl. repeat split; now apply max0_id.
Qed.

(** C5, amended. For every screen size and distance the table entry for
    "down" is the point reflection through the screen centre of the entry
    for "up", and the entry for "left" that of the entry for "right".  The
    swipes the command computes from them keep this relation whenever the
    clamp leaves the entries unchanged: for a screen of non-negative width
    and a distance between [-h] and [h] (up and down), and for a screen of
    non-negative height and a distance between [-w] and [w] (left and
    right). *)
Theorem scroll_reflection (w h dist : Q) :
  (exists td tu tl tr,
     table_entry w h dist "down" = Some td /\
     table_entry w h dist "up" = Some tu /\
     table_entry w h dist "left" = Some tl /\
     table_entry w h dist "right" = Some tr /\
     swipe_eq td (reflect (w / 2) (h / 2) tu) /\
     swipe_eq tl (reflect (w / 2) (h / 2) tr)) /\
  (0 <= w -> - h <= dist -> dist <= h ->
   exists sd su,
     scroll_swipe w h dist "down" = Some sd /\
     scroll_swipe w h dist "up" = Some su /\
     swipe_eq sd (reflect (w / 2) (h / 2) su)) /\
  (0 <= h -> - w <= dist -> dist <= w ->
   exists sl sr,
     scroll_swipe w h dist "left" = Some sl /\
     scroll_swipe w h dist "right" = Some sr /\
     swipe_eq sl (reflect (w / 2) (h / 2) sr)).
Proof.
  assert (Hhalf : forall a, 0 <= a -> 0 <= a / 2).
  { intros a Ha. apply Qle_shift_div_l; [reflexivity | now rewrite Qmult_0_l]. }
  assert (Hsub : forall a d, - a <= d -> 0 <= a / 2 + d / 2).
  { intros a d Hd. setoid_replace (a / 2 + d / 2) with ((a + d) / 2) by field.
    apply Hhalf. lra. }
  assert (Hadd : forall a d, d <= a -> 0 <= a / 2 - d / 2).
  { intros a d Hd. setoid_replace (a / 2 - d / 2) with ((a - d) / 2) by field.
    apply Hhalf. lra. }
  split; [|split].
  - do 4 eexists. repeat split; try reflexivity; simpl; field.
  - intros Hw Hlo Hhi. do 2 eexists.
    split; [reflexivity|]. split; [reflexivity|].
    unfold swipe_eq, reflect, clamp. simpl.
    rewrite !max0_id by auto.
    repeat split; field.
  - intros Hh Hlo Hhi. do 2 eexists.
    split; [reflexivity|]. split; [reflexivity|].
    unfold swipe_eq, reflect, clamp. simpl.
    rewrite !max0_id by auto.
    repeat split; field.
Qed.

Lemma scroll_reflection_witness :
  (exists sd su,
     scroll_swipe 390 844 300 "down" = Some sd /\
     scroll_swipe 390 844 300 "up" = Some su /\
     swipe_eq sd (reflect (390 / 2) (844 / 2) su)) /\
  (exists sl sr,
     scroll_swipe 390 844 300 "left" = Some sl /\
     scroll_swipe 390 844 300 "right" = Some sr /\
     swipe_eq sl (reflect (390 / 2) (844 / 2) sr)).
Proof.
  split.
  - apply (proj1 (proj2 (scroll_reflection 390 844 300))); unfold Qle; simpl; lia.
  - apply (proj2 (proj2 (scroll_reflection 390 844 300))); unfold Qle; simpl; lia.
Defined.

(** C6. Whatever the screen size and the distance, for each of the four
    directions the swipe the command computes is the clamped table entry:
    its four coordinates are [max(0, .)] of the entry's, hence non-negative,
    and so are the four integers issued to the external tool.  (No other
    direction has a swipe.) *)
Theorem scroll_swipe_nonneg (w h dist : Q) (direction : string) :
  match scroll_swipe w h dist direction with
  | Some s =>
      In direction direction_choices /\
      (exists t, table_entry w h dist direction = Some t /\
                 x1 s = max0 (x1 t) /\ y1 s = max0 (y1 t) /\
                 x2 s = max0 (x2 t) /\ y2 s = max0 (y2 t)) /\
      (0 <= x1 s /\ 0 <= y1 s /\ 0 <= x2 s /\ 0 <= y2 s) /\
      (let '(a, b, c, d) := issued s in 0 <= a /\ 0 <= b /\ 0 <= c /\ 0 <= d)%Z
  | None => ~ In direction direction_choices
  end.
Proof.
  rewrite scroll_swipe_clamps.
  pose proof (table_entry_defined w h dist direction) as Hdef.
  destruct (table_entry w h dist direction) as [t|]; simpl.
  - split; [apply Hdef; discriminate|].
    split; [exists t; repeat split|].
    split.
    + repeat split; apply max0_nonneg.
    + repeat split; apply py_int_nonneg, max0_nonneg.
  - intros Hin. apply Hdef in Hin. now apply Hin.
Qed.

Example scroll_clamped_example :
  exists s, scroll_swipe 390 844 1000 "down" = Some s /\
            issued s = (195, 922, 195, 0)%Z.
Proof. eexists. split; reflexivity. Qed.

Local Close Scope Q_scope.

(* ------------------------------------------------------------------ *)
(** ** Key names *)

Lemma digits_not_named (key : string) :
  PyStr.isdigit key = true -> lookup (PyStr.lower key) NAMED_KEYS = None.
Proof.
  destruct key as [|c rest]; [discriminate|].
  unfold PyStr.isdigit, PyStr.all_digits. fold PyStr.all_digits.
  intros H. apply andb_true_iff in H. destruct H as [Hc _].
  destruct c as [[] [] [] [] [] [] [] []]; try discriminate Hc; reflexivity.
Qed.

Lemma key_val_named (key : string) (code : Z) :
  lookup (PyStr.lower key) NAMED_KEYS = Some code ->
  key_val key = PyStr.str_of_Z code.
Proof.
  intros H. unfold key_val. destruct (PyStr.isdigit key) eqn:Hd.
  - rewrite (digits_not_named _ Hd) in H. discriminate.
  - cbn [negb]. now rewrite H.
Qed.

Lemma key_val_digits (key : string) :
  PyStr.isdigit key = true -> key_val key = key.
Proof. intros H. unfold key_val. now rewrite H. Qed.

Lemma key_val_other (key : string) :
  lookup (PyStr.lower key) NAMED_KEYS = None -> key_val key = key.
Proof.
  intros H. unfold key_val. rewrite H. now destruct (PyStr.isdigit key).
Qed.

Example key_enter : key_val "ENTER" = "40".
Proof. reflexivity. Qed.

Example key_backspace : key_val "Backspace" = "42".
Proof. reflexivity. Qed.

Example key_tab : key_val "tab" = "43".
Proof. reflexivity. Qed.

Example key_code : key_val "0042" = "0042".
Proof. reflexivity. Qed.

Example key_unknown : key_val "PageDown" = "PageDown".
Proof. reflexivity. Qed.

(* ------------------------------------------------------------------ *)
(** ** Failures of external processes *)

Lemma run_failure (cmd : list piece) (capture : bool) (o : Oracle) (w : World) :
  returncode (o (calls w)) <> 0%Z ->
  run cmd true capture o w =
    (Exit (returncode (o (calls w))),
     mkWorld (S (calls w)) (trace w ++ failure_report capture cmd (o (calls w)))).
Proof.
  intros Hrc. apply Z.eqb_neq in Hrc.
  unfold run, bind, subprocess_run, failure_report. simpl. rewrite Hrc. simpl.
  destruct (captured_stderr capture (o (calls w))) as [s|]; simpl.
  - destruct (PyStr.truthy s); simpl; now rewrite <- !app_assoc.
  - now rewrite <- !app_assoc.
Qed.

Lemma run_success (cmd : list piece) (capture : bool) (o : Oracle) (w : World) :
  returncode (o (calls w)) = 0%Z ->
  run cmd true capture o w =
    (Ok (o (calls w)), mkWorld (S (calls w)) (trace w ++ [EvRun cmd])).
Proof.
  intros Hrc. unfold run, bind, subprocess_run. simpl. now rewrite Hrc.
Qed.

Section Propagation.

Context {A B : Type}.

Lemma propagates_pure (m : M A) :
  (forall o w, calls (snd (m o w)) = calls w) -> propagates m.
Proof.
  intros H o w0. rewrite H. split; [lia|]. intros k Hk. lia.
Qed.

Lemma propagates_ret (a : A) : propagates (ret a).
Proof. now apply propagates_pure. Qed.

Lemma propagates_sys_exit (code : Z) : propagates (@sys_exit A code).
Proof. now apply propagates_pure. Qed.

Lemma propagates_raise (exn : string) : propagates (@raise A exn).
Proof. now apply propagates_pure. Qed.

Lemma propagates_bind (m : M A) (k : A -> M B) :
  propagates m -> (forall a, propagates (k a)) -> propagates (bind m k).
Proof.
  intros Hm Hk o w0. unfold bind.
  destruct (Hm o w0) as [Hle Hfail].
  destruct (m o w0) as [[a|c|e] w1] eqn:Hr; simpl in *.
  - destruct (Hk a o w1) as [Hle' Hfail'].
    split; [lia|]. intros j Hj Hrc.
    destruct (Nat.lt_ge_cases j (calls w1)) as [Hlt|Hge].
    + destruct (Hfail j (conj (proj1 Hj) Hlt) Hrc) as [Habs _]. discriminate.
    + apply Hfail'; [lia | assumption].
  - split; [assumption|]. intros j Hj Hrc.
    destruct (Hfail j Hj Hrc) as [Hc Hrest]. injection Hc as ->. now split.
  - split; [assumption|]. intros j Hj Hrc.
    destruct (Hfail j Hj Hrc) as [Hc _]. discriminate.
Qed.

End Propagation.

Lemma propagates_emit (e : Event) : propagates (emit e).
Proof. now apply propagates_pure. Qed.

Lemma propagates_emit_all (es : list Event) : propagates (emit_all es).
Proof. now apply propagates_pure. Qed.

Lemma propagates_run (cmd : list piece) : propagates (run cmd true true).
Proof.
  intros o w0.
  destruct (Z.eq_dec (returncode (o (calls w0))) 0) as [H0|Hne].
  - rewrite (run_success _ _ _ _ H0). simpl. split; [lia|].
    intros k Hk Hrc. assert (k = calls w0) by lia. subst k. contradiction.
  - rewrite (run_failure _ _ _ _ Hne). simpl. split; [lia|].
    intros k Hk Hrc. assert (k = calls w0) by lia. subst k.
    repeat split. now exists (trace w0), cmd.
Qed.

Create HintDb propagate.
#[local] Hint Resolve propagates_ret propagates_sys_exit propagates_raise
  propagates_bind propagates_emit propagates_emit_all propagates_run : propagate.
#[local] Hint Unfold print eprint sleep print_ui_summary : propagate.

(** Split on the tests a command makes on its data, then chain the rules. *)
Ltac propagate :=
  repeat first
    [ apply propagates_run
    | progress (autounfold with propagate)
    | match goal with
      | |- propagates (bind _ _) => apply propagates_bind; [|intro]
      | |- propagates (if ?b then _ else _) => destruct b
      | |- propagates (match ?x with _ => _ end) => destruct x
      end
    | solve [auto with propagate] ].

Lemma describe_all_propagates (udid : option string) : propagates (describe_all udid).
Proof. unfold describe_all. propagate. Qed.

#[local] Hint Resolve describe_all_propagates : propagate.

Lemma with_ui_hooks_propagates (udid : option string) (name : text) (action : M unit) :
  propagates action -> propagates (with_ui_hooks udid name action).
Proof. intros H. unfold with_ui_hooks. propagate. Qed.

#[local] Hint Resolve with_ui_hooks_propagates : propagate.

Lemma handler_propagates (c : NavCommand) : propagates (handler c).
Proof.
  destruct c; simpl;
    unfold cmd_tap, cmd_tap_element, cmd_swipe, cmd_scroll, cmd_text, cmd_key,
           cmd_button, cmd_openurl;
    propagate.
Qed.

Lemma cmd_find_propagates (args : FindArgs) : propagates (cmd_find args).
Proof. unfold cmd_find. propagate. Qed.

(* ------------------------------------------------------------------ *)
(** ** The order of the steps of a navigation command *)

Lemma phases_app (tr tr' : list Event) :
  phases (tr ++ tr') = phases tr ++ phases tr'.
Proof.
  induction tr as [|e tr IH]; simpl; [reflexivity|].
  destruct (phase_of e); simpl; now rewrite IH.
Qed.

Lemma phases_failure_report (capture : bool) (cmd : list piece) (r : ProcResult) :
  phases (failure_report capture cmd r) = [run_phase cmd].
Proof.
  unfold failure_report. simpl.
  destruct (captured_stderr capture r) as [s|]; [destruct (PyStr.truthy s)|]; reflexivity.
Qed.

Lemma phases_available_labels (elements : list Element) :
  phases (available_labels elements) = [].
Proof.
  unfold available_labels. induction elements as [|e rest IH]; simpl; [reflexivity|].
  rewrite phases_app, IH. now destruct (PyStr.truthy (any_label e)).
Qed.

Lemma run_phase_describe (udid : option string) :
  run_phase (describe_all_cmd udid) = Snapshot.
Proof. reflexivity. Qed.

Lemma run_phase_tap (args : TapArgs) : run_phase (tap_cmd args) = Action.
Proof. unfold tap_cmd. now destruct (truthy_Q (tap_duration args)). Qed.

Lemma run_phase_tap_element (cx cy : Q) (udid : option string) :
  run_phase (tap_element_cmd cx cy udid) = Action.
Proof. reflexivity. Qed.

Lemma run_phase_swipe (args : SwipeArgs) : run_phase (swipe_cmd args) = Action.
Proof.
  unfold swipe_cmd.
  now destruct (truthy_Q (swipe_duration args)), (truthy_Z (swipe_delta args)).
Qed.

Lemma run_phase_scroll (s : Swipe) (speed : Q) (udid : option string) :
  run_phase (scroll_cmd s speed udid) = Action.
Proof. reflexivity. Qed.

Lemma run_phase_key (args : KeyArgs) : run_phase (key_cmd args) = Action.
Proof. reflexivity. Qed.

(** Evaluate the next [run] of the goal, once for a process that succeeds
    and once for one that fails. *)
Ltac eval_monad :=
  unfold exec, bind, print, eprint, sleep, print_ui_summary, ret, emit, emit_all,
         sys_exit, raise, init_world;
  cbn [fst snd calls trace app].

Ltac eval_run :=
  match goal with
  | |- context [run ?cmd true true ?o ?w] =>
      let n := eval cbn [calls] in (calls w) in
      let H := fresh "Hrc" in
      destruct (Z.eq_dec (returncode (o n)) 0) as [H|H];
      [ rewrite (run_success cmd true o w H)
      | rewrite (run_failure cmd true o w H) ];
      eval_monad
  end.

(** The same when the process is known to have succeeded. *)
Ltac eval_run_ok H :=
  match goal with
  | |- context [run ?cmd true true ?o ?w] =>
      rewrite (run_success cmd true o w H); eval_monad
  end.

Ltac eval_data :=
  match goal with
  | |- context [match stdout_json ?r with _ => _ end] =>
      destruct (stdout_json r) as [?elements|] eqn:?Hjson
  | |- context [match find_element ?es ?l with _ => _ end] =>
      destruct (find_element es l) as [?elem|] eqn:?Hfind
  | |- context [match scroll_swipe ?w ?h ?d ?dir with _ => _ end] =>
      destruct (scroll_swipe w h d dir) as [?s|] eqn:?Hswipe
  | |- context [let '(_, _) := screen_size ?es in _] =>
      destruct (screen_size es) as [?w ?h] eqn:?Hsize
  | |- context [let '(_, _) := element_center ?e in _] =>
      destruct (element_center e) as [?cx ?cy] eqn:?Hcenter
  | |- context [if negb (PyStr.mem ?b ?l) then _ else _] =>
      destruct (PyStr.mem b l) eqn:?Hvalid; cbn [negb]
  end; eval_monad.

Ltac eval_command :=
  unfold handler, cmd_tap, cmd_tap_element, cmd_swipe, cmd_scroll, cmd_text,
         cmd_key, cmd_button, cmd_openurl, with_ui_hooks, describe_all;
  eval_monad; repeat first [eval_run | eval_data].

(** Evaluate the next [run] when every process is known to succeed. *)
Ltac eval_run_all Hall :=
  match goal with
  | |- context [run ?cmd true true ?o ?w] =>
      let n := eval cbn [calls] in (calls w) in
      eval_run_ok (Hall n ltac:(lia))
  end.

(** C7. For each of the eight navigation commands: (1) when the three
    processes it starts succeed, the two snapshots are JSON and its local
    check passes, the command returns normally and its steps are exactly, in
    this order: the snapshot, a summary of the elements of that snapshot
    under a label that opens with PRE, the external action of the command, a
    sleep of one second, the snapshot again, a summary of the elements of
    this second snapshot under a label that opens with POST; (2) whatever
    the processes answer, the steps taken are an initial part of that
    sequence and the command returns normally exactly when it went through
    all six (a failing process or a failed local check ends the run
    there). *)
Theorem navigation_sequence (c : NavCommand) (o : Oracle) :
  (forall pre post,
     (forall k, (k < 3)%nat -> returncode (o k) = 0%Z) ->
     stdout_json (o 0%nat) = Some pre ->
     stdout_json (o 2%nat) = Some post ->
     checks_pass c pre ->
     fst (exec (handler c) o) = Ok tt /\
     exists action pre_label post_label,
       action_of c pre = Some action /\
       is_describe action = false /\
       steps (trace (snd (exec (handler c) o))) =
         [ EvRun (describe_all_cmd (udid_of c));
           EvSummary pre_label pre;
           EvRun action;
           EvSleep 1;
           EvRun (describe_all_cmd (udid_of c));
           EvSummary post_label post ] /\
       labelled "PRE  | " pre_label /\ labelled "POST | " post_label) /\
  (exists rest, hooked = phases (trace (snd (exec (handler c) o))) ++ rest) /\
  (fst (exec (handler c) o) = Ok tt <->
   phases (trace (snd (exec (handler c) o))) = hooked).
Proof.
  split.
  - intros pre post Hall Hpre Hpost Hchk.
    destruct c; cbn [checks_pass action_of udid_of] in *;
      unfold handler, cmd_tap, cmd_tap_element, cmd_swipe, cmd_scroll, cmd_text,
             cmd_key, cmd_button, cmd_openurl, with_ui_hooks, describe_all;
      eval_monad;
      repeat first [ eval_run_all Hall
                   | rewrite Hpre; eval_monad
                   | rewrite Hpost; eval_monad
                   | eval_data ].
    all: cbn [fst snd] in *.
    all: try (exfalso; congruence).
    all: repeat match goal with
                | H1 : ?x = Some ?a, H2 : ?x = Some ?b |- _ =>
                    assert (a = b) by congruence; subst b; clear H2
                end.
    all: try (exfalso; apply Hchk; first [reflexivity | assumption]).
    all: try (exfalso; apply mem_In in Hchk; congruence).
    all: try (exfalso; rewrite scroll_swipe_clamps in Hswipe;
              apply (table_entry_defined w h (scroll_distance args)) in Hchk;
              destruct (table_entry w h (scroll_distance args) (scroll_direction args));
              [discriminate Hswipe | contradiction]).
    all: (split; [reflexivity|]); do 3 eexists; (split; [reflexivity|]);
      (split; [|split; [reflexivity | split; do 2 eexists; split; reflexivity]]).
    all: unfold tap_cmd, swipe_cmd, tap_element_cmd, scroll_cmd, key_cmd;
      repeat match goal with
             | |- context [if ?b then _ else _] => destruct b
             end; reflexivity.
  - destruct c; eval_command;
      repeat (rewrite ?phases_app, ?phases_failure_report, ?phases_available_labels;
              cbn [phases phase_of app]);
      rewrite ?run_phase_describe, ?run_phase_tap, ?run_phase_tap_element,
              ?run_phase_swipe, ?run_phase_scroll, ?run_phase_key;
      cbn [app];
      (split; [eexists; reflexivity | split; (reflexivity || discriminate)]).
Qed.

Lemma navigation_sequence_witness :
  fst (exec (handler press_enter) iphone) = Ok tt /\
  exists action pre_label post_label,
    action_of press_enter [iphone_app] = Some action /\
    is_describe action = false /\
    steps (trace (snd (exec (handler press_enter) iphone))) =
      [ EvRun (describe_all_cmd (udid_of press_enter));
        EvSummary pre_label [iphone_app];
        EvRun action;
        EvSleep 1;
        EvRun (describe_all_cmd (udid_of press_enter));
        EvSummary post_label [iphone_app] ] /\
    labelled "PRE  | " pre_label /\ labelled "POST | " post_label.
Proof.
  apply (proj1 (navigation_sequence press_enter iphone) [iphone_app] [iphone_app]).
  - intros k Hk. reflexivity.
  - reflexivity.
  - reflexivity.
  - exact I.
Defined.

Example press_enter_complete :
  fst (exec (handler press_enter) iphone) = Ok tt /\
  phases (trace (snd (exec (handler press_enter) iphone))) = hooked.
Proof. split; reflexivity. Qed.

Example tap_unknown_element_stops :
  fst (exec (handler (TapElement (mkTapElementArgs "wifi" None))) settings_screen) = Exit 1 /\
  phases (trace (snd (exec (handler (TapElement (mkTapElementArgs "wifi" None)))
                           settings_screen))) = [Snapshot; Summary].
Proof. split; reflexivity. Qed.

(* ------------------------------------------------------------------ *)
(** ** Error handling *)

(** C8. (1) When the process started by [run] exits non-zero, [run] prints
    the [ERROR:] line and the captured stderr (when there is any) on stderr
    and exits with the code of the process.  (2) In every navigation
    command, a process that exits non-zero ends the run with its own exit
    code, the report of the failure being the last thing on the trace.
    (3) [tap-element] on a snapshot where the lookup finds nothing prints
    its diagnostic on stderr and exits with code 1 without starting another
    process.  (4) [button] with a name outside the five valid ones prints
    its diagnostic on stderr and exits with code 1 before any process is
    started. *)
Theorem failures_exit :
  (forall cmd capture o w,
     returncode (o (calls w)) <> 0%Z ->
     run cmd true capture o w =
       (Exit (returncode (o (calls w))),
        mkWorld (S (calls w))
          (trace w ++
           EvRun cmd :: EvErr (Lit "ERROR: " :: join_args cmd) ::
           (if capture && PyStr.truthy (stderr (o (calls w)))
            then [EvErr [Lit (stderr (o (calls w)))]] else [])))) /\
  (forall c o k,
     (k < calls (snd (exec (handler c) o)))%nat ->
     returncode (o k) <> 0%Z ->
     fst (exec (handler c) o) = Exit (returncode (o k)) /\
     exists tr cmd,
       trace (snd (exec (handler c) o)) =
         tr ++ EvRun cmd :: EvErr (Lit "ERROR: " :: join_args cmd) ::
               (if PyStr.truthy (stderr (o k)) then [EvErr [Lit (stderr (o k))]] else [])) /\
  (forall args o elements,
     returncode (o 0%nat) = 0%Z ->
     stdout_json (o 0%nat) = Some elements ->
     find_element elements (te_label args) = None ->
     fst (exec (cmd_tap_element args) o) = Exit 1 /\
     calls (snd (exec (cmd_tap_element args) o)) = 1%nat /\
     In (EvErr (no_element_message (te_label args)))
        (trace (snd (exec (cmd_tap_element args) o)))) /\
  (forall args o,
     ~ In (PyStr.upper (button_button args)) valid_buttons ->
     exec (cmd_button args) o =
       (Exit 1, mkWorld 0 [EvErr (invalid_button_message (PyStr.upper (button_button args)))])).
Proof.
  split; [|split; [|split]].
  - intros cmd capture o w Hrc. rewrite (run_failure _ _ _ _ Hrc).
    unfold failure_report, captured_stderr. now destruct capture.
  - intros c o k Hk Hrc.
    destruct (handler_propagates c o init_world) as [_ Hfail].
    destruct (Hfail k (conj (Nat.le_0_l k) Hk) Hrc) as [Hout [_ Htr]].
    split; [exact Hout | exact Htr].
  - intros args o elements Hrc Hjson Hfind.
    unfold cmd_tap_element, describe_all. eval_monad.
    eval_run_ok Hrc. rewrite Hjson. eval_monad. rewrite Hfind. eval_monad.
    repeat split. unfold no_element_message. cbn [In]. auto 6.
  - intros args o Hbad. unfold cmd_button.
    destruct (PyStr.mem (PyStr.upper (button_button args)) valid_buttons) eqn:Hmem.
    + apply mem_In in Hmem. contradiction.
    + reflexivity.
Qed.

Lemma failures_exit_witness :
  fst (exec (handler press_enter) companion_down) = Exit 3 /\
  fst (exec (cmd_tap_element (mkTapElementArgs "wifi" None)) settings_screen) = Exit 1 /\
  exec (cmd_button (mkButtonArgs "volume" None)) companion_down =
    (Exit 1, mkWorld 0 [EvErr (invalid_button_message "VOLUME")]).
Proof.
  split; [|split].
  - refine (proj1 (proj1 (proj2 failures_exit) press_enter companion_down 0%nat _ _)).
    + vm_compute. lia.
    + vm_compute. discriminate.
  - refine (proj1 (proj1 (proj2 (proj2 failures_exit))
                     (mkTapElementArgs "wifi" None) settings_screen
                     [settings_row; settings_button] _ _ _)); reflexivity.
  - apply (proj2 (proj2 (proj2 failures_exit)) (mkButtonArgs "volume" None)).
    vm_compute. intuition discriminate.
Defined.

Example button_rejected :
  exec (cmd_button (mkButtonArgs "volume" None)) companion_down =
    (Exit 1, mkWorld 0 [EvErr (invalid_button_message "VOLUME")]).
Proof. reflexivity. Qed.

Example find_not_found (o : Oracle) (args : FindArgs) (elements : list Element) :
  returncode (o 0%nat) = 0%Z ->
  stdout_json (o 0%nat) = Some elements ->
  find_element elements (find_label args) = None ->
  fst (exec (cmd_find args) o) = Exit 1.
Proof.
  intros Hrc Hjson Hfind. unfold cmd_find, describe_all. eval_monad.
  eval_run_ok Hrc. rewrite Hjson. eval_monad. now rewrite Hfind.
Qed.

(* ------------------------------------------------------------------ *)
(** ** The scroll direction at the parsing boundary *)

(** C9. A direction outside up, down, left, right is refused by the parser:
    the run ends with the parser's exit status 2 and its message, before any
    process is started and before [cmd_scroll] is entered.  Arguments that
    the parser lets through carry one of the four directions, for which the
    direction table has an entry whatever the screen size and distance; so
    no run of [scroll] ends with the [KeyError] of the table lookup. *)
Theorem unknown_direction_rejected :
  (forall argv o,
     ~ In (argv_direction argv) direction_choices ->
     exec (main_scroll argv) o =
       (Exit 2, mkWorld 0 [EvErr (invalid_choice_message (argv_direction argv))])) /\
  (forall argv o args w,
     parse_scroll argv o init_world = (Ok args, w) ->
     In (scroll_direction args) direction_choices /\
     forall width height dist,
       exists s, scroll_swipe width height dist (scroll_direction args) = Some s) /\
  (forall argv o, fst (exec (main_scroll argv) o) <> Raise "KeyError").
Proof.
  split; [|split].
  - intros argv o Hbad. unfold exec, main_scroll, parse_scroll, bind.
    destruct (PyStr.mem (argv_direction argv) direction_choices) eqn:Hmem.
    + apply mem_In in Hmem. contradiction.
    + reflexivity.
  - intros argv o args w. unfold parse_scroll.
    destruct (PyStr.mem (argv_direction argv) direction_choices) eqn:Hmem.
    + intros [= <- _]. cbn [scroll_direction]. apply mem_In in Hmem.
      split; [assumption|]. intros width height dist.
      apply (table_entry_defined width height dist) in Hmem.
      rewrite scroll_swipe_clamps.
      destruct (table_entry width height dist (argv_direction argv)) as [t|];
        [now exists (clamp t) | contradiction].
    + discriminate.
  - intros argv o. unfold main_scroll, parse_scroll.
    destruct (PyStr.mem (argv_direction argv) direction_choices) eqn:Hmem.
    + apply mem_In in Hmem.
      unfold cmd_scroll, describe_all. cbn [scroll_direction scroll_udid scroll_distance].
      eval_monad; repeat first [eval_run | eval_data]; try discriminate.
      cbn [scroll_direction scroll_distance] in Hswipe.
      rewrite scroll_swipe_clamps in Hswipe.
      apply (table_entry_defined w h (get_num (argv_distance argv) 300)) in Hmem.
      destruct (table_entry w h (get_num (argv_distance argv) 300) (argv_direction argv));
        [discriminate Hswipe | contradiction].
    + eval_monad. discriminate.
Qed.

Lemma unknown_direction_rejected_witness :
  exec (main_scroll (mkScrollArgv "sideways" None None None)) companion_down =
    (Exit 2, mkWorld 0 [EvErr (invalid_choice_message "sideways")]) /\
  In "down" direction_choices.
Proof.
  split.
  - apply (proj1 unknown_direction_rejected (mkScrollArgv "sideways" None None None)).
    vm_compute. intuition discriminate.
  - refine (proj1 (proj1 (proj2 unknown_direction_rejected) scroll_down_300 iphone
                     (mkScrollArgs "down" 300 (4 # 10) None) init_world _)).
    reflexivity.
Defined.

(* ------------------------------------------------------------------ *)
(** ** Keys are translated or forwarded, never refused *)

(** C10. A key whose lowered form is a known name is replaced by the decimal
    text of its keycode; an all-digit key is kept; any other key is kept as
    well.  Whatever the key, once the first snapshot has succeeded the
    command starts [idb ui key] with that value, and the command only ever
    exits with the non-zero exit code of a process it started: there is no
    local rejection. *)
Theorem key_translated_or_forwarded :
  (forall key code,
     lookup (PyStr.lower key) NAMED_KEYS = Some code ->
     key_val key = PyStr.str_of_Z code) /\
  (forall key, PyStr.isdigit key = true -> key_val key = key) /\
  (forall key, lookup (PyStr.lower key) NAMED_KEYS = None -> key_val key = key) /\
  (forall args o elements,
     returncode (o 0%nat) = 0%Z ->
     stdout_json (o 0%nat) = Some elements ->
     In (EvRun ([Lit "idb"; Lit "ui"; Lit "key"; Lit (key_val (key_key args))]
                ++ udid_flags (key_udid args)))
        (trace (snd (exec (cmd_key args) o)))) /\
  (forall args o code,
     fst (exec (cmd_key args) o) = Exit code ->
     exists k, (k < calls (snd (exec (cmd_key args) o)))%nat /\
               returncode (o k) = code /\ code <> 0%Z).
Proof.
  split; [exact key_val_named|].
  split; [exact key_val_digits|].
  split; [exact key_val_other|].
  split.
  - intros args o elements Hrc Hjson.
    change ([Lit "idb"; Lit "ui"; Lit "key"; Lit (key_val (key_key args))]
            ++ udid_flags (key_udid args)) with (key_cmd args).
    unfold cmd_key, with_ui_hooks, describe_all. eval_monad.
    eval_run_ok Hrc. rewrite Hjson. eval_monad.
    repeat first [eval_run | eval_data];
      rewrite ?in_app_iff; unfold failure_report; cbn [In]; auto 12.
  - intros args o code.
    unfold cmd_key, with_ui_hooks, describe_all. eval_monad.
    repeat first [eval_run | eval_data]; intros Hexit; try discriminate Hexit;
      injection Hexit as <-;
      (refine (ex_intro _ _ (conj _ (conj eq_refl _))); [lia | assumption]).
Qed.

Lemma key_translated_or_forwarded_witness :
  key_val "ENTER" = PyStr.str_of_Z 40 /\
  key_val "0042" = "0042" /\
  key_val "PageDown" = "PageDown" /\
  In (EvRun [Lit "idb"; Lit "ui"; Lit "key"; Lit (key_val "PageDown")])
     (trace (snd (exec (cmd_key (mkKeyArgs "PageDown" None)) iphone))) /\
  exists k, (k < calls (snd (exec (cmd_key (mkKeyArgs "PageDown" None)) companion_down)))%nat /\
            returncode (companion_down k) = 3%Z /\ 3%Z <> 0%Z.
Proof.
  split; [|split; [|split; [|split]]].
  - apply (proj1 key_translated_or_forwarded "ENTER" 40%Z). reflexivity.
  - apply (proj1 (proj2 key_translated_or_forwarded) "0042"). reflexivity.
  - apply (proj1 (proj2 (proj2 key_translated_or_forwarded)) "PageDown"). reflexivity.
  - apply (proj1 (proj2 (proj2 (proj2 key_translated_or_forwarded)))
             (mkKeyArgs "PageDown" None) iphone [iphone_app]); reflexivity.
  - apply (proj2 (proj2 (proj2 (proj2 key_translated_or_forwarded)))
             (mkKeyArgs "PageDown" None) companion_down 3%Z). reflexivity.
Defined.

(* ------------------------------------------------------------------ *)
(** ** A run of scroll, end to end *)

Example scroll_down_run :
  exec (main_scroll scroll_down_300) iphone =
    (Ok tt,
     mkWorld 3
       [ EvRun [Lit "idb"; Lit "ui"; Lit "describe-all"; Lit "--json"];
         EvSummary [Lit "PRE  | scroll-"; Lit "down"] [iphone_app];
         EvRun [Lit "idb"; Lit "ui"; Lit "swipe"; Lit "195"; Lit "572"; Lit "195";
                Lit "272"; Lit "--duration"; Num "" (4 # 10)];
         EvPrint [Lit "Scrolled "; Lit "down"; Lit ": swipe ("; Lit "195"; Lit ",";
                  Lit "572"; Lit ") -> ("; Lit "195"; Lit ","; Lit "272"; Lit ")"];
         EvSleep 1;
         EvRun [Lit "idb"; Lit "ui"; Lit "describe-all"; Lit "--json"];
         EvSummary [Lit "POST | scroll-"; Lit "down"] [iphone_app] ]).
Proof. vm_compute. reflexivity. Qed.


(* ================================================================== *)
(** * Further properties of the code *)

(* ------------------------------------------------------------------ *)
(** ** Lookup: the empty query and growing lists *)

Lemma scan_app (exact : bool) (q : string) (l m : list Element) :
  scan exact q (l ++ m) =
  match scan exact q l with
  | Some e => Some e
  | None => scan exact q m
  end.
Proof.
  induction l as [|x l IH]; simpl; [reflexivity|].
  now destruct (matches exact q x).
Qed.

Lemma empty_exact_is_blank (e : Element) : matches true "" e = has_blank e.
Proof.
  unfold matches, has_blank, blank, candidates, PyStr.mem.
  destruct (AXLabel e) as [[|? ?]|], (title e) as [[|? ?]|], (AXValue e) as [[|? ?]|];
    reflexivity.
Qed.

Lemma scan_is_find (exact : bool) (q : string) (elements : list Element) :
  scan exact q elements = find (matches exact q) elements.
Proof.
  induction elements as [|x rest IH]; simpl; [reflexivity|].
  now destruct (matches exact q x).
Qed.

Lemma contains_empty (c : string) : PyStr.contains c "" = true.
Proof. destruct c; reflexivity. Qed.

Lemma no_blank_partial (e : Element) :
  has_blank e = false -> matches false "" e = true.
Proof.
  unfold has_blank, blank, matches, candidates. intros H.
  apply orb_false_iff in H. destruct H as [H Hv].
  apply orb_false_iff in H. destruct H as [Hl Ht].
  apply negb_false_iff in Hl, Ht, Hv.
  destruct (PyStr.or_empty (AXLabel e)) as [|c s]; [discriminate|].
  simpl. reflexivity.
Qed.

(** X1. The empty query always finds something in a non-empty list: the
    first element that has an absent or empty label, title or value, and the
    very first element when every element carries all three. *)
Theorem empty_query_finds (e : Element) (rest : list Element) :
  find_element (e :: rest) "" =
  Some match find has_blank (e :: rest) with
       | Some b => b
       | None => e
       end.
Proof.
  unfold find_element, run_passes. cbn [PyStr.lower].
  rewrite scan_is_find.
  assert (Hfind : find (matches true "") (e :: rest) = find has_blank (e :: rest)).
  { generalize (e :: rest). intros l. induction l as [|x l IH]; cbn [find]; [reflexivity|].
    rewrite empty_exact_is_blank. now rewrite IH. }
  rewrite Hfind. destruct (find has_blank (e :: rest)) as [b|] eqn:Hb; [reflexivity|].
  assert (He : has_blank e = false).
  { cbn [find] in Hb. now destruct (has_blank e). }
  cbn [scan]. now rewrite (no_blank_partial e He).
Qed.

(** X2. Once the lookup has returned an element that matches the query
    exactly, elements added at the end of the list do not change its
    answer. *)
Theorem exact_result_stable (elements more : list Element) (query : string)
  (e : Element) :
  find_element elements query = Some e ->
  exact_for query e ->
  find_element (elements ++ more) query = Some e.
Proof.
  intros Hfind Hexact. apply exact_for_hit, matches_exact in Hexact.
  unfold find_element, run_passes in *. rewrite scan_app.
  destruct (scan true (PyStr.lower query) elements) as [r|] eqn:Hs; [assumption|].
  destruct (scan false (PyStr.lower query) elements) as [r|] eqn:Hp; [|discriminate].
  injection Hfind as ->.
  destruct (scan_some _ _ _ _ Hp) as [before [after [Hel _]]].
  assert (Hin : In e elements) by (rewrite Hel; apply in_or_app; right; now left).
  rewrite (scan_none _ _ _ Hs e Hin) in Hexact. discriminate.
Qed.

Lemma exact_result_stable_witness :
  find_element ([settings_row; settings_button] ++ [settings_row]) "settings" =
  Some settings_button.
Proof.
  apply (exact_result_stable [settings_row; settings_button] [settings_row] "settings").
  - reflexivity.
  - right. left. reflexivity.
Defined.

(* ------------------------------------------------------------------ *)
(** ** Coordinates: bounds and symmetries *)

Local Open Scope Q_scope.

Lemma half_nonneg (a : Q) : 0 <= a -> 0 <= a / 2.
Proof.
  intros Ha. apply Qle_shift_div_l; [reflexivity | now rewrite Qmult_0_l].
Qed.

Lemma half_le (a : Q) : 0 <= a -> a / 2 <= a.
Proof.
  intros Ha. apply Qle_shift_div_r; [reflexivity|]. lra.
Qed.

(** X3. For a frame of non-negative width and height the centre lies inside
    the frame, on both axes. *)
Theorem center_inside_frame (e : Element) (x y w h : Q) :
  0 <= w -> 0 <= h ->
  let '(cx, cy) := element_center (framed e x y w h) in
  x <= cx /\ cx <= x + w /\ y <= cy /\ cy <= y + h.
Proof.
  intros Hw Hh. simpl.
  pose proof (half_nonneg w Hw). pose proof (half_nonneg h Hh).
  pose proof (half_le w Hw). pose proof (half_le h Hh).
  repeat split; lra.
Qed.

Lemma center_inside_frame_witness :
  let '(cx, cy) := element_center (framed settings_row 100 200 50 20) in
  100 <= cx /\ cx <= 100 + 50 /\ 200 <= cy /\ cy <= 200 + 20.
Proof.
  apply (center_inside_frame settings_row 100 200 50 20); unfold Qle; simpl; lia.
Defined.

Lemma max0_eq (a b : Q) : a == b -> max0 a == max0 b.
Proof.
  intros Hab. unfold max0. rewrite (Qleb_comp a b Hab 0 0 (Qeq_refl 0)).
  now destruct (Qle_bool b 0).
Qed.

Lemma max0_ge (a : Q) : a <= max0 a.
Proof.
  unfold max0. destruct (Qle_bool a 0) eqn:E; [now apply Qle_bool_iff | apply Qle_refl].
Qed.

Lemma max0_cases (a : Q) : (a <= 0 /\ max0 a = 0) \/ (0 < a /\ max0 a = a).
Proof.
  unfold max0. destruct (Qle_bool a 0) eqn:E.
  - left. split; [now apply Qle_bool_iff | reflexivity].
  - right. split; [|reflexivity].
    destruct (Qlt_le_dec 0 a) as [H|H]; [assumption|].
    apply Qle_bool_iff in H. congruence.
Qed.

Lemma max0_mono (a b : Q) : a <= b -> max0 a <= max0 b.
Proof.
  intros Hab.
  destruct (max0_cases a) as [[Ha ->]|[Ha ->]], (max0_cases b) as [[Hb ->]|[Hb ->]]; lra.
Qed.

Lemma max0_contracts (a b : Q) : a <= b -> max0 b - max0 a <= b - a.
Proof.
  intros Hab.
  destruct (max0_cases a) as [[Ha ->]|[Ha ->]], (max0_cases b) as [[Hb ->]|[Hb ->]]; lra.
Qed.

(** X4. Whatever the screen size and the distance, and with the clamp
    applied, the swipe computed for "up" is the swipe for "down" run
    backwards, and the swipe for "right" is the swipe for "left" run
    backwards. *)
Theorem scroll_opposites_reversed (w h dist : Q) :
  scroll_swipe w h dist "up" = option_map reversed (scroll_swipe w h dist "down") /\
  scroll_swipe w h dist "right" = option_map reversed (scroll_swipe w h dist "left").
Proof. split; reflexivity. Qed.

(** X5. A negative distance turns the scroll around: the swipe for "down"
    with distance [-d] is the swipe for "up" with distance [d], and likewise
    for "left" and "right". *)
Theorem scroll_negative_distance (w h d : Q) :
  (exists s t, scroll_swipe w h (- d) "down" = Some s /\
               scroll_swipe w h d "up" = Some t /\ swipe_eq s t) /\
  (exists s t, scroll_swipe w h (- d) "left" = Some s /\
               scroll_swipe w h d "right" = Some t /\ swipe_eq s t).
Proof.
  split; do 2 eexists; (split; [reflexivity|]); (split; [reflexivity|]);
    unfold swipe_eq, clamp; simpl; repeat split; apply max0_eq; field.
Qed.

(** X6. With a non-negative distance the clamped swipe stays on its axis,
    goes in the direction the table gives it, and never travels farther
    than the distance asked for. *)
Theorem scroll_travel_bounded (w h dist : Q) :
  0 <= dist ->
  (exists s, scroll_swipe w h dist "down" = Some s /\
             x1 s = x2 s /\ 0 <= y1 s - y2 s /\ y1 s - y2 s <= dist) /\
  (exists s, scroll_swipe w h dist "up" = Some s /\
             x1 s = x2 s /\ 0 <= y2 s - y1 s /\ y2 s - y1 s <= dist) /\
  (exists s, scroll_swipe w h dist "left" = Some s /\
             y1 s = y2 s /\ 0 <= x1 s - x2 s /\ x1 s - x2 s <= dist) /\
  (exists s, scroll_swipe w h dist "right" = Some s /\
             y1 s = y2 s /\ 0 <= x2 s - x1 s /\ x2 s - x1 s <= dist).
Proof.
  intros Hd. pose proof (half_nonneg dist Hd) as Hhalf.
  assert (Hle : forall c, c - dist / 2 <= c + dist / 2) by (intros c; lra).
  assert (Hgap : forall c, (c + dist / 2) - (c - dist / 2) <= dist).
  { intros c. setoid_replace ((c + dist / 2) - (c - dist / 2)) with dist by field.
    apply Qle_refl. }
  repeat split; eexists; (split; [reflexivity|]); cbn [clamp x1 y1 x2 y2];
    (split; [reflexivity|]); split.
  all: try (pose proof (max0_mono _ _ (Hle (h / 2))); lra).
  all: try (pose proof (max0_mono _ _ (Hle (w / 2))); lra).
  all: try (pose proof (max0_contracts _ _ (Hle (h / 2))); pose proof (Hgap (h / 2)); lra).
  all: try (pose proof (max0_contracts _ _ (Hle (w / 2))); pose proof (Hgap (w / 2)); lra).
Qed.

Lemma scroll_travel_bounded_witness :
  exists s, scroll_swipe 390 844 1000 "down" = Some s /\
            x1 s = x2 s /\ 0 <= y1 s - y2 s /\ y1 s - y2 s <= 1000.
Proof.
  apply (proj1 (scroll_travel_bounded 390 844 1000 ltac:(unfold Qle; simpl; lia))).
Defined.

(** X7. The screen size is read from the first element whose role is
    AXApplication; where that element has no key [frame], or its frame no
    key [width] or [height], 390 and 844 stand in; elements before it and
    anything after it play no part; without such an element the size is 390
    by 844. *)
Theorem screen_size_first_application :
  (forall elements,
     (forall e, In e elements -> is_application e = false) ->
     screen_size elements = (390, 844)) /\
  (forall before app after,
     (forall e, In e before -> is_application e = false) ->
     is_application app = true ->
     screen_size (before ++ app :: after) =
       (get_num (f_width (frame_of app)) 390, get_num (f_height (frame_of app)) 844)).
Proof.
  split.
  - intros elements Hnone. unfold screen_size.
    fold is_application.
    replace (find is_application elements) with (@None Element); [reflexivity|].
    symmetry. induction elements as [|x l IH]; simpl; [reflexivity|].
    rewrite (Hnone x (or_introl eq_refl)). apply IH. intros e He. apply Hnone. now right.
  - intros before app after Hnone Happ. unfold screen_size. fold is_application.
    replace (find is_application (before ++ app :: after)) with (Some app); [reflexivity|].
    symmetry. induction before as [|x l IH]; simpl.
    + now rewrite Happ.
    + rewrite (Hnone x (or_introl eq_refl)). apply IH. intros e He. apply Hnone. now right.
Qed.

Lemma screen_size_first_application_witness :
  screen_size ([settings_row] ++ iphone_app :: [settings_button]) =
    (get_num (f_width (frame_of iphone_app)) 390,
     get_num (f_height (frame_of iphone_app)) 844).
Proof.
  apply (proj2 screen_size_first_application [settings_row] iphone_app [settings_button]).
  - intros e [<-|[]]. reflexivity.
  - reflexivity.
Defined.

Local Close Scope Q_scope.

(* ------------------------------------------------------------------ *)
(** ** What the commands start *)

Lemma started_app (tr tr' : list Event) :
  started (tr ++ tr') = started tr ++ started tr'.
Proof.
  induction tr as [|e tr IH]; simpl; [reflexivity|].
  destruct e; simpl; now rewrite ?IH.
Qed.

Lemma started_failure_report (capture : bool) (cmd : list piece) (r : ProcResult) :
  started (failure_report capture cmd r) = [cmd].
Proof.
  unfold failure_report. simpl.
  destruct (captured_stderr capture r) as [s|]; [destruct (PyStr.truthy s)|]; reflexivity.
Qed.

Lemma started_available_labels (elements : list Element) :
  started (available_labels elements) = [].
Proof.
  unfold available_labels. induction elements as [|e rest IH]; simpl; [reflexivity|].
  rewrite started_app, IH. now destruct (PyStr.truthy (any_label e)).
Qed.

Lemma started_find_labels (elements : list Element) :
  started (find_labels elements) = [].
Proof.
  unfold find_labels. induction elements as [|e rest IH]; cbn [flat_map]; [reflexivity|].
  rewrite started_app, IH, app_nil_r.
  destruct (PyStr.truthy (any_label e)); [|reflexivity].
  now destruct (element_center e).
Qed.

(** Bring [started] of an evaluated trace to a list of command lines. *)
Ltac eval_started :=
  repeat (rewrite ?started_app, ?started_failure_report, ?started_available_labels,
                  ?started_find_labels;
          cbn [started app]).

Lemma tap_element_started (args : TapElementArgs) (o : Oracle)
  (elements : list Element) (e : Element) :
  returncode (o 0%nat) = 0%Z ->
  stdout_json (o 0%nat) = Some elements ->
  find_element elements (te_label args) = Some e ->
  let tap := tap_element_cmd (fst (element_center e)) (snd (element_center e))
                             (te_udid args) in
  let snapshot := describe_all_cmd (te_udid args) in
  started (trace (snd (exec (cmd_tap_element args) o))) = [snapshot; tap] \/
  started (trace (snd (exec (cmd_tap_element args) o))) = [snapshot; tap; snapshot].
Proof.
  intros Hrc Hjson Hfind.
  unfold cmd_tap_element, describe_all. eval_monad.
  eval_run_ok Hrc. rewrite Hjson. eval_monad. rewrite Hfind.
  destruct (element_center e) as [cx cy]. eval_monad. cbn [fst snd].
  change ([Lit "idb"; Lit "ui"; Lit "tap"; Lit (PyStr.str_of_Z (py_int cx));
           Lit (PyStr.str_of_Z (py_int cy))] ++ udid_flags (te_udid args))
    with (tap_element_cmd cx cy (te_udid args)).
  repeat first [eval_run | eval_data]; eval_started; auto.
Qed.

(** X8. When the first snapshot succeeds and the lookup finds an element,
    tap-element taps the integer part of the centre of that element, as the
    second process of the run, and starts nothing but snapshots besides. *)
Theorem tap_element_taps_center (args : TapElementArgs) (o : Oracle)
  (elements : list Element) (e : Element) :
  returncode (o 0%nat) = 0%Z ->
  stdout_json (o 0%nat) = Some elements ->
  find_element elements (te_label args) = Some e ->
  let '(cx, cy) := element_center e in
  let tap := [Lit "idb"; Lit "ui"; Lit "tap"; Lit (PyStr.str_of_Z (py_int cx));
              Lit (PyStr.str_of_Z (py_int cy))] ++ udid_flags (te_udid args) in
  let snapshot := describe_all_cmd (te_udid args) in
  started (trace (snd (exec (cmd_tap_element args) o))) = [snapshot; tap] \/
  started (trace (snd (exec (cmd_tap_element args) o))) = [snapshot; tap; snapshot].
Proof.
  intros Hrc Hjson Hfind.
  pose proof (tap_element_started args o elements e Hrc Hjson Hfind) as H.
  destruct (element_center e) as [cx cy]. exact H.
Qed.

Lemma tap_element_taps_center_witness :
  let run := exec (cmd_tap_element (mkTapElementArgs "settings" None))
                  (showing (framed settings_row 100 200 50 20)) in
  let snapshot := [Lit "idb"; Lit "ui"; Lit "describe-all"; Lit "--json"] in
  let tap := [Lit "idb"; Lit "ui"; Lit "tap"; Lit "125"; Lit "210"] in
  started (trace (snd run)) = [snapshot; tap] \/
  started (trace (snd run)) = [snapshot; tap; snapshot].
Proof.
  exact (tap_element_taps_center (mkTapElementArgs "settings" None)
           (showing (framed settings_row 100 200 50 20))
           [framed settings_row 100 200 50 20]
           (framed settings_row 100 200 50 20)
           eq_refl eq_refl eq_refl).
Defined.

(** X9. An element found that has no key [frame] is tapped at the point
    (0, 0). *)
Theorem tap_element_without_frame (args : TapElementArgs) (o : Oracle)
  (elements : list Element) (e : Element) :
  returncode (o 0%nat) = 0%Z ->
  stdout_json (o 0%nat) = Some elements ->
  find_element elements (te_label args) = Some e ->
  frame e = None ->
  In ([Lit "idb"; Lit "ui"; Lit "tap"; Lit "0"; Lit "0"] ++ udid_flags (te_udid args))
     (started (trace (snd (exec (cmd_tap_element args) o)))).
Proof.
  intros Hrc Hjson Hfind Hframe.
  pose proof (tap_element_started args o elements e Hrc Hjson Hfind) as H.
  unfold element_center in H. rewrite Hframe in H. cbn beta iota zeta in H.
  destruct H as [-> | ->]; right; left; reflexivity.
Qed.

Lemma tap_element_without_frame_witness :
  In [Lit "idb"; Lit "ui"; Lit "tap"; Lit "0"; Lit "0"]
     (started (trace (snd (exec (cmd_tap_element (mkTapElementArgs "menu" None))
                                (showing settings_row))))).
Proof.
  exact (tap_element_without_frame (mkTapElementArgs "menu" None) (showing settings_row)
           [settings_row] settings_row eq_refl eq_refl eq_refl eq_refl).
Defined.

(** X10. When the first snapshot succeeds, scroll swipes along the vector
    computed from the screen size of that snapshot, as the second process of
    the run, and starts nothing but snapshots besides. *)
Theorem scroll_swipes_computed_vector (args : ScrollArgs) (o : Oracle)
  (elements : list Element) (s : Swipe) :
  returncode (o 0%nat) = 0%Z ->
  stdout_json (o 0%nat) = Some elements ->
  scroll_swipe (fst (screen_size elements)) (snd (screen_size elements))
               (scroll_distance args) (scroll_direction args) = Some s ->
  let swipe := scroll_cmd s (scroll_speed args) (scroll_udid args) in
  let snapshot := describe_all_cmd (scroll_udid args) in
  started (trace (snd (exec (cmd_scroll args) o))) = [snapshot; swipe] \/
  started (trace (snd (exec (cmd_scroll args) o))) = [snapshot; swipe; snapshot].
Proof.
  intros Hrc Hjson Hswipe.
  unfold cmd_scroll, describe_all. eval_monad.
  eval_run_ok Hrc. rewrite Hjson. eval_monad.
  destruct (screen_size elements) as [w h]. cbn [fst snd] in Hswipe. rewrite Hswipe.
  eval_monad. repeat first [eval_run | eval_data]; eval_started; auto.
Qed.

Lemma scroll_swipes_computed_vector_witness :
  let run := exec (cmd_scroll (mkScrollArgs "down" 300 (4 # 10) None)) iphone in
  let snapshot := [Lit "idb"; Lit "ui"; Lit "describe-all"; Lit "--json"] in
  let swipe := [Lit "idb"; Lit "ui"; Lit "swipe"; Lit "195"; Lit "572"; Lit "195";
                Lit "272"; Lit "--duration"; Num "" (4 # 10)] in
  started (trace (snd run)) = [snapshot; swipe] \/
  started (trace (snd run)) = [snapshot; swipe; snapshot].
Proof.
  exact (scroll_swipes_computed_vector (mkScrollArgs "down" 300 (4 # 10) None) iphone
           [iphone_app] (mkSwipe (390 # 2) (2288 # 4) (390 # 2) (1088 # 4))
           eq_refl eq_refl eq_refl).
Defined.

(* ------------------------------------------------------------------ *)
(** ** Hardware buttons *)

Lemma upper_lower_char (c : ascii) :
  PyStr.upper_char (PyStr.lower_char c) = PyStr.upper_char c.
Proof. destruct c as [[] [] [] [] [] [] [] []]; reflexivity. Qed.

Lemma upper_lower (s : string) : PyStr.upper (PyStr.lower s) = PyStr.upper s.
Proof.
  induction s as [|c s IH]; simpl; [reflexivity|].
  now rewrite upper_lower_char, IH.
Qed.

(** X11. The letter case of a button name is of no consequence: two names
    that agree up to case make [button] behave in exactly the same way. *)
Theorem button_case_insensitive (b b' : string) (u : option string) (o : Oracle) :
  PyStr.lower b = PyStr.lower b' ->
  exec (cmd_button (mkButtonArgs b u)) o = exec (cmd_button (mkButtonArgs b' u)) o.
Proof.
  intros Hcase. unfold cmd_button. cbn [button_button button_udid].
  assert (Hup : PyStr.upper b = PyStr.upper b').
  { rewrite <- (upper_lower b), <- (upper_lower b'). now rewrite Hcase. }
  now rewrite Hup.
Qed.

Lemma button_case_insensitive_witness :
  exec (cmd_button (mkButtonArgs "home" None)) iphone =
  exec (cmd_button (mkButtonArgs "HoMe" None)) iphone.
Proof.
  apply (button_case_insensitive "home" "HoMe" None iphone). reflexivity.
Defined.

(** X12. [button] never starts [idb ui button] with a name outside the five
    valid ones, whatever its argument and whatever the processes answer. *)
Theorem button_never_invalid (args : ButtonArgs) (o : Oracle) :
  Forall (fun cmd => forall b rest,
            cmd = Lit "idb" :: Lit "ui" :: Lit "button" :: Lit b :: rest ->
            In b valid_buttons)
         (started (trace (snd (exec (cmd_button args) o)))).
Proof.
  unfold cmd_button, with_ui_hooks, describe_all.
  destruct (PyStr.mem (PyStr.upper (button_button args)) valid_buttons) eqn:Hmem;
    cbn [negb]; eval_monad.
  - apply mem_In in Hmem.
    repeat first [eval_run | eval_data]; eval_started;
      repeat (apply Forall_cons || apply Forall_nil);
      intros b rest Heq; try discriminate Heq;
      cbn [app] in Heq; injection Heq as <- _; exact Hmem.
  - eval_started. constructor.
Qed.

(* ------------------------------------------------------------------ *)
(** ** How a navigation command can end *)

(** X14. A navigation command starts at most three processes. *)
Theorem navigation_at_most_three (c : NavCommand) (o : Oracle) :
  (calls (snd (exec (handler c) o)) <= 3)%nat.
Proof. destruct c; eval_command; lia. Qed.

(* ------------------------------------------------------------------ *)
(** ** The simulator identifier reaches every process *)

Lemma carries_flags (u : string) (udid : option string) (pre post : list piece) :
  udid = Some u -> u <> "" -> carries_udid u (pre ++ udid_flags udid ++ post).
Proof.
  intros -> Hu. unfold udid_flags.
  destruct u as [|c u]; [contradiction|]. cbn [PyStr.truthy].
  now exists pre, post.
Qed.

Lemma carries_flags_end (u : string) (udid : option string) (pre : list piece) :
  udid = Some u -> u <> "" -> carries_udid u (pre ++ udid_flags udid).
Proof.
  intros Hu Hne. rewrite <- (app_nil_r (udid_flags udid)). now apply carries_flags.
Qed.

Lemma carries_more (u : string) (cmd more : list piece) :
  carries_udid u cmd -> carries_udid u (cmd ++ more).
Proof.
  intros [pre [post ->]]. exists pre, (post ++ more).
  now rewrite <- app_assoc.
Qed.

Lemma carries_cons (u : string) (a : piece) (cmd : list piece) :
  carries_udid u cmd -> carries_udid u (a :: cmd).
Proof. intros [pre [post ->]]. now exists (a :: pre), post. Qed.

Lemma tap_cmd_carries (u : string) (args : TapArgs) :
  tap_udid args = Some u -> u <> "" -> carries_udid u (tap_cmd args).
Proof.
  intros Hu Hne. unfold tap_cmd.
  destruct (truthy_Q (tap_duration args)); [apply carries_more|];
    now apply carries_flags_end.
Qed.

Lemma swipe_cmd_carries (u : string) (args : SwipeArgs) :
  swipe_udid args = Some u -> u <> "" -> carries_udid u (swipe_cmd args).
Proof.
  intros Hu Hne. unfold swipe_cmd.
  destruct (truthy_Q (swipe_duration args)), (truthy_Z (swipe_delta args));
    repeat first [solve [now apply carries_flags_end] | apply carries_more].
Qed.

(** X15. When a navigation command is given a non-empty simulator
    identifier, every process it starts, snapshots included, is passed
    [--udid] followed by that identifier. *)
Theorem udid_reaches_every_process (c : NavCommand) (o : Oracle) (u : string) :
  udid_of c = Some u -> u <> "" ->
  Forall (carries_udid u) (started (trace (snd (exec (handler c) o)))).
Proof.
  intros Hu Hne.
  assert (Hd : carries_udid u (describe_all_cmd (udid_of c))).
  { unfold describe_all_cmd. now apply carries_flags_end. }
  destruct c; cbn [udid_of] in Hu, Hd; eval_command; eval_started;
    repeat (apply Forall_cons || apply Forall_nil);
    unfold tap_element_cmd, scroll_cmd, key_cmd;
    first [ exact Hd
          | now apply tap_cmd_carries
          | now apply swipe_cmd_carries
          | now apply carries_flags_end
          | repeat apply carries_cons; now apply (carries_flags_end u _ []) ].
Qed.

Lemma udid_reaches_every_process_witness :
  Forall (carries_udid "A1B2")
    (started (trace (snd (exec (handler (Key (mkKeyArgs "tab" (Some "A1B2")))) iphone)))).
Proof.
  apply (udid_reaches_every_process (Key (mkKeyArgs "tab" (Some "A1B2"))) iphone "A1B2").
  - reflexivity.
  - discriminate.
Defined.

(* ------------------------------------------------------------------ *)
(** ** with_ui_hooks around an arbitrary action *)

Lemma after_pre_reached (udid : option string) (name : text) (action : M unit)
  (o : Oracle) (w0 : World) (pre : list Element) :
  returncode (o (calls w0)) = 0%Z ->
  stdout_json (o (calls w0)) = Some pre ->
  with_ui_hooks udid name action o w0 =
  (action ;;;
   sleep 1 ;;;
   print (Lit nl :: Lit "> " :: name ++ [Lit " - capturing POST-action UI state ..."]) ;;;
   post <- describe_all udid ;;
   print_ui_summary post (Lit "POST | " :: name) ;;;
   ret (pre, post))%py o (after_pre udid name pre w0).
Proof.
  intros Hrc Hjson. unfold with_ui_hooks, describe_all, after_pre. eval_monad.
  eval_run_ok Hrc. rewrite Hjson. eval_monad.
  rewrite <- !app_assoc. reflexivity.
Qed.

(** X16. [with_ui_hooks], whatever the action: once the first snapshot has
    succeeded, (1) an action that exits or raises ends the wrapper in the
    same way and in the same world, with no sleep and no second snapshot;
    (2) when the action returns and the second snapshot succeeds, the wrapper
    returns the two snapshots, having started one process after the
    action. *)
Theorem with_ui_hooks_around (udid : option string) (name : text) (action : M unit)
  (o : Oracle) (w0 wa : World) (pre : list Element) :
  returncode (o (calls w0)) = 0%Z ->
  stdout_json (o (calls w0)) = Some pre ->
  (forall code, action o (after_pre udid name pre w0) = (Exit code, wa) ->
                with_ui_hooks udid name action o w0 = (Exit code, wa)) /\
  (forall exn, action o (after_pre udid name pre w0) = (Raise exn, wa) ->
               with_ui_hooks udid name action o w0 = (Raise exn, wa)) /\
  (forall post,
     action o (after_pre udid name pre w0) = (Ok tt, wa) ->
     returncode (o (calls wa)) = 0%Z ->
     stdout_json (o (calls wa)) = Some post ->
     fst (with_ui_hooks udid name action o w0) = Ok (pre, post) /\
     calls (snd (with_ui_hooks udid name action o w0)) = S (calls wa)).
Proof.
  intros Hrc Hjson. rewrite (after_pre_reached _ _ _ _ _ _ Hrc Hjson).
  unfold describe_all. eval_monad.
  split; [|split].
  - intros code Hact. now rewrite Hact.
  - intros exn Hact. now rewrite Hact.
  - intros post Hact Hrc' Hjson'. rewrite Hact. eval_monad. eval_run_ok Hrc'.
    rewrite Hjson'. split; reflexivity.
Qed.

Lemma with_ui_hooks_around_witness :
  with_ui_hooks None [Lit "noop"] (sys_exit 7) iphone init_world =
    (Exit 7, after_pre None [Lit "noop"] [iphone_app] init_world) /\
  fst (with_ui_hooks None [Lit "noop"] (ret tt) iphone init_world) =
    Ok ([iphone_app], [iphone_app]).
Proof.
  split.
  - apply (proj1 (with_ui_hooks_around None [Lit "noop"] (sys_exit 7) iphone init_world
                    (after_pre None [Lit "noop"] [iphone_app] init_world) [iphone_app]
                    eq_refl eq_refl) 7%Z).
    reflexivity.
  - apply (proj2 (proj2 (with_ui_hooks_around None [Lit "noop"] (ret tt) iphone init_world
                           (after_pre None [Lit "noop"] [iphone_app] init_world)
                           [iphone_app] eq_refl eq_refl)) [iphone_app]); reflexivity.
Defined.

(* ------------------------------------------------------------------ *)
(** ** cmd_find *)

(** X17. [find] only looks: whatever happens it starts exactly one process,
    the snapshot. *)
Theorem find_only_snapshots (args : FindArgs) (o : Oracle) :
  started (trace (snd (exec (cmd_find args) o))) = [describe_all_cmd (find_udid args)].
Proof.
  unfold cmd_find, describe_all. eval_monad.
  repeat first [eval_run | eval_data]; eval_started; try reflexivity.
  destruct (find_udid args) as [u|]; [destruct (PyStr.truthy u)|]; reflexivity.
Qed.

(** X18. On a snapshot that succeeds, [find] returns normally when the
    lookup finds an element and exits with code 1 when it finds none. *)
Theorem find_outcome (args : FindArgs) (o : Oracle) (elements : list Element) :
  returncode (o 0%nat) = 0%Z ->
  stdout_json (o 0%nat) = Some elements ->
  fst (exec (cmd_find args) o) =
  match find_element elements (find_label args) with
  | Some _ => Ok tt
  | None => Exit 1
  end.
Proof.
  intros Hrc Hjson. unfold cmd_find, describe_all. eval_monad.
  eval_run_ok Hrc. rewrite Hjson. eval_monad.
  destruct (find_element elements (find_label args)) as [e|]; [|reflexivity].
  destruct (element_center e) as [cx cy]. eval_monad.
  destruct (find_udid args) as [u|]; [destruct (PyStr.truthy u)|]; reflexivity.
Qed.

Lemma find_outcome_witness :
  fst (exec (cmd_find (mkFindArgs "wifi" None)) settings_screen) = Exit 1 /\
  fst (exec (cmd_find (mkFindArgs "menu" None)) settings_screen) = Ok tt.
Proof.
  split.
  - exact (find_outcome (mkFindArgs "wifi" None) settings_screen
             [settings_row; settings_button] eq_refl eq_refl).
  - exact (find_outcome (mkFindArgs "menu" None) settings_screen
             [settings_row; settings_button] eq_refl eq_refl).
Defined.

(* ------------------------------------------------------------------ *)
(** ** Commands that start one process and report *)

(** X19. boot, shutdown, install, launch, terminate and screenshot print
    their line of completion exactly when their process exited with 0; when
    it did not, the command exits with the code of the process and starts
    nothing else. *)
Theorem simple_command_reports (c : SimpleCommand) (o : Oracle) :
  (In (EvPrint (done_message c)) (trace (snd (exec (simple_handler c) o))) <->
   returncode (o 0%nat) = 0%Z) /\
  (returncode (o 0%nat) <> 0%Z ->
   fst (exec (simple_handler c) o) = Exit (returncode (o 0%nat)) /\
   calls (snd (exec (simple_handler c) o)) = 1%nat).
Proof.
  destruct c; unfold simple_handler, cmd_boot, cmd_shutdown, cmd_install, cmd_launch,
    cmd_terminate, cmd_screenshot, describe_all, done_message; eval_monad.
  all: destruct (Z.eq_dec (returncode (o 0%nat)) 0) as [Hrc|Hrc].
  all: match goal with
       | |- context [run ?cmd true ?capture ?orc ?w] =>
           first [ rewrite (run_success cmd capture orc w Hrc)
                 | rewrite (run_failure cmd capture orc w Hrc) ]
       end; eval_monad.
  all: repeat first [eval_run | eval_data].
  all: split;
    [ split;
      [ intros Hin; rewrite ?in_app_iff in Hin; unfold failure_report in Hin;
        cbn [In] in Hin;
        repeat match goal with
               | H : _ \/ _ |- _ => destruct H
               | H : In _ (match ?x with _ => _ end) |- _ => destruct x
               | H : In _ (if ?x then _ else _) |- _ => destruct x
               | H : In _ [] |- _ => destruct H
               | H : In _ (_ :: _) |- _ => destruct H
               | H : False |- _ => destruct H
               end;
        try discriminate; try assumption; try contradiction
      | intros Hzero; try contradiction; rewrite ?in_app_iff; cbn [In]; auto 12 ]
    | intros Hne; try contradiction; split; reflexivity ].
Qed.

Lemma simple_command_reports_witness :
  fst (exec (simple_handler (Boot (mkUdidArgs "A1B2"))) companion_down) = Exit 3 /\
  calls (snd (exec (simple_handler (Boot (mkUdidArgs "A1B2"))) companion_down)) = 1%nat.
Proof.
  apply (proj2 (simple_command_reports (Boot (mkUdidArgs "A1B2")) companion_down)).
  vm_compute. discriminate.
Defined.

(* ------------------------------------------------------------------ *)
(** ** Keys *)

Lemma named_codes_are_digits (s : string) (code : Z) :
  lookup s NAMED_KEYS = Some code -> PyStr.isdigit (PyStr.str_of_Z code) = true.
Proof.
  unfold NAMED_KEYS. cbn [lookup].
  repeat match goal with
         | |- context [String.eqb s ?k] => destruct (String.eqb s k)
         end;
    intros H; try discriminate H; injection H as <-; reflexivity.
Qed.

(** X20. Translating a key twice changes nothing: the value sent for a key
    is sent unchanged when it is given as the key, so the keycode of a name
    may be given in place of the name. *)
Theorem key_val_idempotent (key : string) : key_val (key_val key) = key_val key.
Proof.
  destruct (PyStr.isdigit key) eqn:Hd.
  - now rewrite !(key_val_digits key Hd).
  - destruct (lookup (PyStr.lower key) NAMED_KEYS) as [code|] eqn:Hl.
    + rewrite (key_val_named key code Hl).
      apply key_val_digits. exact (named_codes_are_digits _ _ Hl).
    + now rewrite !(key_val_other key Hl).
Qed.

(* ------------------------------------------------------------------ *)
(** ** The text of the summary *)

Lemma in_firstn {A : Type} (n : nat) (l : list A) (x : A) :
  In x (firstn n l) -> In x l.
Proof.
  intros H. rewrite <- (firstn_skipn n l). apply in_or_app. now left.
Qed.

Lemma interactive_block_length (elements : list Element) :
  (length (interactive_block elements) <= 17)%nat.
Proof.
  unfold interactive_block.
  destruct (interactive elements) as [|e shown] eqn:Hs; [simpl; lia|].
  generalize (e :: shown). intros l.
  cbn [length]. rewrite length_app, length_map, length_firstn.
  destruct (15 <? length l)%nat; cbn [length]; lia.
Qed.

(** X21. However many elements the snapshot holds, the summary has at most
    23 lines. *)
Theorem summary_at_most_23_lines (elements : list Element) (label : text) :
  (length (summary_lines elements label) <= 23)%nat.
Proof.
  unfold summary_lines. rewrite !length_app.
  pose proof (interactive_block_length elements).
  destruct (find is_application elements); cbn [length]; lia.
Qed.

(** X22. The block of the summary that lists elements holds, besides its
    heading and its closing count, only lines of elements of the snapshot
    that have an interactive role and whose key [enabled] is true or absent;
    and when there are at most 15 such elements each of them has its
    line. *)
Theorem summary_lists_interactive (elements : list Element) :
  (forall line, In line (interactive_block elements) ->
     line = [Lit nl; Lit "  Interactive (";
             Lit (PyStr.str_of_Z (Z.of_nat (length (interactive elements)))); Lit "):"] \/
     line = [Lit "    ... and ";
             Lit (PyStr.str_of_Z (Z.of_nat (length (interactive elements) - 15)));
             Lit " more"] \/
     exists e, In e elements /\ is_interactive e = true /\ line = interactive_line e) /\
  ((length (interactive elements) <= 15)%nat ->
   forall e, In e elements -> is_interactive e = true ->
             In (interactive_line e) (interactive_block elements)).
Proof.
  unfold interactive_block. split.
  - intros line Hin.
    destruct (interactive elements) as [|x shown] eqn:Hs; [destruct Hin|].
    destruct Hin as [<-|Hin]; [now left|].
    apply in_app_or in Hin. destruct Hin as [Hin|Hin].
    + right. right. apply in_map_iff in Hin. destruct Hin as [e [<- He]].
      apply in_firstn in He. rewrite <- Hs in He. apply filter_In in He.
      exists e. now repeat split.
    + destruct (15 <? length (x :: shown))%nat; [|destruct Hin].
      destruct Hin as [<-|[]]. right. now left.
  - intros Hfew e Hin Hint.
    assert (He : In e (interactive elements)) by (apply filter_In; now split).
    destruct (interactive elements) as [|x shown] eqn:Hs; [destruct He|].
    right. apply in_or_app. left. apply in_map.
    rewrite firstn_all2 by exact Hfew. exact He.
Qed.

Lemma summary_lists_interactive_witness :
  In (interactive_line settings_button) (interactive_block [settings_row; settings_button]).
Proof.
  apply (proj2 (summary_lists_interactive [settings_row; settings_button])).
  - vm_compute. lia.
  - simpl. auto.
  - reflexivity.
Defined.

(* ------------------------------------------------------------------ *)
(** ** The listing of the devices *)

Lemma print_device_unavailable (label : string) (d : Device) (o : Oracle) (w : World) :
  available d = false -> print_device label d o w = (Ok tt, w).
Proof. intros H. unfold print_device. now rewrite H. Qed.

Lemma print_device_available (label : string) (d : Device) (o : Oracle) (w : World) :
  available d = true ->
  print_device label d o w =
  if printable d
  then (Ok tt, mkWorld (calls w) (trace w ++ [device_event label d]))
  else (Raise "KeyError", w).
Proof.
  intros H. unfold print_device, printable, device_event. rewrite H. cbn [negb orb].
  destruct (state d) as [st|]; [|reflexivity].
  destruct (udid d) as [u|]; [|reflexivity].
  destruct (name d) as [n|]; reflexivity.
Qed.

Lemma for_each_devices (label : string) (ds : list Device) (o : Oracle) (w : World) :
  (forallb printable ds = true ->
   for_each (print_device label) ds o w =
     (Ok tt, mkWorld (calls w)
               (trace w ++ map (device_event label) (filter available ds)))) /\
  (forallb printable ds = false ->
   fst (for_each (print_device label) ds o w) = Raise "KeyError" /\
   calls (snd (for_each (print_device label) ds o w)) = calls w).
Proof.
  revert w. induction ds as [|d ds IH]; intros w.
  - split; [|discriminate]. intros _. cbn [for_each filter map]. rewrite app_nil_r.
    now destruct w.
  - cbn [for_each forallb filter]. unfold bind.
    destruct (available d) eqn:Ha.
    + rewrite (print_device_available _ _ _ _ Ha).
      destruct (printable d) eqn:Hp; cbn [andb].
      * destruct (IH (mkWorld (calls w) (trace w ++ [device_event label d]))) as [Hok Hbad].
        split.
        -- intros Hall. rewrite (Hok Hall). cbn [calls trace map].
           now rewrite <- app_assoc.
        -- intros Hall. exact (Hbad Hall).
      * split; [discriminate|]. intros _. split; reflexivity.
    + rewrite (print_device_unavailable _ _ _ _ Ha).
      unfold printable at 1 3. rewrite Ha. cbn [negb orb andb]. apply IH.
Qed.

Lemma none_available (ds : list Device) :
  existsb available ds = false ->
  filter available ds = [] /\ forallb printable ds = true.
Proof.
  induction ds as [|d ds IH]; [now split|].
  cbn [existsb filter forallb]. intros H. apply orb_false_iff in H.
  destruct H as [Hd Hds]. rewrite Hd. unfold printable at 1. rewrite Hd.
  cbn [negb orb andb]. now apply IH.
Qed.

(** X23. The listing of the devices starts no process.  When every
    available device carries its state, identifier and name, it prints its
    two heading lines and then one line for each available device and none
    for the others, in the order of the data; otherwise it ends with a
    [KeyError].  A device that is not available is never looked into. *)
Theorem print_devices_lists_available (devices : list (string * list Device))
  (o : Oracle) (w : World) :
  calls (snd (print_devices devices o w)) = calls w /\
  (forallb (fun entry => forallb printable (snd entry)) devices = true ->
   print_devices devices o w =
     (Ok tt, mkWorld (calls w) (trace w ++ devices_header ++ device_events devices))) /\
  (forallb (fun entry => forallb printable (snd entry)) devices = false ->
   fst (print_devices devices o w) = Raise "KeyError").
Proof.
  unfold print_devices, devices_header. eval_monad.
  set (w1 := mkWorld (calls w) _).
  assert (Hgen : forall ws,
    calls (snd (for_each print_runtime devices o ws)) = calls ws /\
    (forallb (fun entry => forallb printable (snd entry)) devices = true ->
     for_each print_runtime devices o ws =
       (Ok tt, mkWorld (calls ws) (trace ws ++ device_events devices))) /\
    (forallb (fun entry => forallb printable (snd entry)) devices = false ->
     fst (for_each print_runtime devices o ws) = Raise "KeyError")).
  { induction devices as [|[runtime ds] devices IH]; intros ws.
    - cbn [for_each forallb device_events flat_map]. unfold ret. rewrite app_nil_r.
      repeat split; [now destruct ws | discriminate].
    - cbn [for_each forallb device_events flat_map fst snd]. unfold bind.
      unfold print_runtime at 1 3 5.
      destruct (existsb available ds) eqn:Hany; cbn [negb].
      + destruct (for_each_devices (rt_label runtime) ds o ws) as [Hok Hbad].
        destruct (forallb printable ds) eqn:Hp; cbn [andb].
        * rewrite (Hok eq_refl).
          destruct (IH (mkWorld (calls ws)
                          (trace ws ++ map (device_event (rt_label runtime))
                                           (filter available ds)))) as [Hc [Hall Hsome]].
          split; [exact Hc|]. split; [|exact Hsome].
          intros Hrest. rewrite (Hall Hrest). cbn [calls trace].
          now rewrite <- app_assoc.
        * destruct (Hbad eq_refl) as [Hout Hcalls].
          destruct (for_each (print_device (rt_label runtime)) ds o ws) as [[[]|c|e] w'];
            cbn [fst snd] in *; try discriminate Hout.
          injection Hout as ->. repeat split; [assumption | discriminate].
      + destruct (none_available ds Hany) as [Hnil Hp]. rewrite Hp, Hnil.
        unfold ret. cbn [andb map app]. apply IH. }
  destruct (Hgen w1) as [Hc [Hall Hsome]]. subst w1. cbn [calls trace] in *.
  split; [exact Hc|]. split; [|exact Hsome].
  intros Hok. rewrite (Hall Hok). cbn [calls trace]. now rewrite <- !app_assoc.
Qed.

Lemma print_devices_lists_available_witness :
  exec (print_devices [("com.apple.CoreSimulator.SimRuntime.iOS-18-0",
                        [retired_phone; booted_phone]);
                       ("com.apple.CoreSimulator.SimRuntime.iOS-15-0", [retired_phone])])
       companion_down =
    (Ok tt,
     mkWorld 0 (devices_header ++
                [EvPrint [Lit "A1B2"; Lit "  "; Lit "* BOOTED  "; Lit "  ";
                          Lit "iPhone 16 Pro"; Lit "  ["; Lit "iOS-18-0"; Lit "]"]])).
Proof.
  apply (proj1 (proj2 (print_devices_lists_available
           [("com.apple.CoreSimulator.SimRuntime.iOS-18-0", [retired_phone; booted_phone]);
            ("com.apple.CoreSimulator.SimRuntime.iOS-15-0", [retired_phone])]
           companion_down init_world))).
  reflexivity.
Defined.

(* ------------------------------------------------------------------ *)
(** ** The label of a runtime *)

Lemma replace_from_skip (old new a s : string) :
  replace_from old new (a ++ s) (String.length a) = replace_from old new s 0.
Proof. induction a as [|c a IH]; simpl; [reflexivity | exact IH]. Qed.

Lemma replace_absent (old new s : string) :
  PyStr.contains s old = false -> replace_from old new s 0 = s.
Proof.
  induction s as [|c s IH]; [reflexivity|].
  cbn [PyStr.contains replace_from]. intros H. apply orb_false_iff in H.
  destruct H as [Hstart Hrest]. rewrite Hstart. now rewrite (IH Hrest).
Qed.

Lemma replace_leading (old new r : string) :
  old <> "" -> replace (old ++ r) old new = (new ++ replace r old new)%string.
Proof.
  intros Hne. destruct old as [|c old']; [contradiction|].
  unfold replace. cbn [append replace_from].
  assert (Hs : PyStr.startswith (String c (old' ++ r)) (String c old') = true).
  { apply startswith_app. now exists r. }
  rewrite Hs.
  replace (String.length (String c old') - 1)%nat with (String.length old')
    by (cbn [String.length]; lia).
  now rewrite replace_from_skip.
Qed.

(** X24. The label of a runtime is its name without the leading
    [com.apple.CoreSimulator.SimRuntime.], and a name in which this text
    does not occur is its own label. *)
Theorem rt_label_strips_prefix (r : string) :
  PyStr.contains r runtime_prefix = false ->
  rt_label (runtime_prefix ++ r) = r /\ rt_label r = r.
Proof.
  intros Habsent. unfold rt_label. split.
  - rewrite replace_leading by discriminate.
    unfold replace. now rewrite (replace_absent _ _ _ Habsent).
  - unfold replace. exact (replace_absent _ _ _ Habsent).
Qed.

Lemma rt_label_strips_prefix_witness :
  rt_label (runtime_prefix ++ "iOS-17-5") = "iOS-17-5" /\ rt_label "iOS-17-5" = "iOS-17-5".
Proof. apply (rt_label_strips_prefix "iOS-17-5"). reflexivity. Defined.
